(** * Time-zone inference of [blockchain.py]: a shallow embedding

    The development follows [src/blockchain.py]:
    - [Py]: the exceptions a call can raise, and the result monad;
    - [Np]: the NumPy operations the code uses ([np.sum], [np.roll],
      broadcasting [*], [np.arange], [np.argmax], [np.histogram], ...),
      over IEEE-754 values taken in exact arithmetic;
    - [Blockchain]: [calculate_time_zone_probability], [guess_time_zones]
      and the functions they call;
    - [ExtractData]: the clean-up of an address in [src/extract_data.py].
    The definitions come first, the lemmas and theorems after them.

    Arithmetic convention.  A [float64] is modelled by [Np.float]: a finite
    value is an exact rational ([Qc], canonical fractions, so that equal
    numbers are equal terms), next to [+inf], [-inf] and [NaN] with the
    IEEE-754 rules for them.  Rounding, overflow to infinity and the sign of
    zero are not modelled: every statement below about numeric values is a
    statement in exact arithmetic.  An [int64] is a [Z] and [np.sum] over
    integers wraps around modulo [2^64] as NumPy does. *)

From Stdlib Require Import String Ascii.
From Stdlib Require Import ZArith QArith Qcanon Qround List Lia Lqa Bool
  Permutation Field.
Import ListNotations.

Set Implicit Arguments.

(* ------------------------------------------------------------------ *)
(** ** Python exceptions and the result monad *)

Module Py.

(** The exception classes the modelled code can raise.  [RangeError] stands
    for the exception of [datetime.utcfromtimestamp] on a timestamp outside
    the years 1..9999 ([ValueError], [OverflowError] or [OSError] according
    to magnitude and platform). *)
Inductive exn : Set :=
  | KeyError | TypeError | ValueError | IndexError | RangeError.

Inductive result (A : Type) : Type :=
  | Ok (a : A)
  | Raise (e : exn).

Arguments Ok {A} a.
Arguments Raise {A} e.

Definition bind {A B} (m : result A) (f : A -> result B) : result B :=
  match m with
  | Ok a => f a
  | Raise e => Raise e
  end.

(** A [for] loop that appends one computed value per element. *)
Fixpoint mapM {A B} (f : A -> result B) (l : list A) : result (list B) :=
  match l with
  | [] => Ok []
  | x :: r =>
      bind (f x) (fun y => bind (mapM f r) (fun ys => Ok (y :: ys)))
  end.

Definition raises {A} (m : result A) : Prop :=
  exists e, m = Raise e.

End Py.

Import Py.

Notation "x <- m ;; k" := (Py.bind m (fun x => k))
  (at level 61, m at next level, right associativity).

(* ------------------------------------------------------------------ *)
(** ** NumPy values and operations *)

Module Np.

Open Scope Qc_scope.

(** [float64] in exact arithmetic. *)
Inductive float : Set :=
  | Fin (q : Qc)
  | PInf
  | NInf
  | NaN.

Definition of_int (z : Z) : float := Fin (Q2Qc (inject_Z z)).

Definition isnan (x : float) : bool :=
  match x with NaN => true | _ => false end.

Definition isfinite (x : float) : bool :=
  match x with Fin _ => true | _ => false end.

(** The infinity (or NaN) whose sign is that of a comparison with zero. *)
Definition inf_of (c : comparison) : float :=
  match c with Gt => PInf | Lt => NInf | Eq => NaN end.

Definition add (x y : float) : float :=
  match x, y with
  | NaN, _ | _, NaN => NaN
  | PInf, NInf | NInf, PInf => NaN
  | PInf, _ | _, PInf => PInf
  | NInf, _ | _, NInf => NInf
  | Fin a, Fin b => Fin (a + b)
  end.

Definition mul (x y : float) : float :=
  match x, y with
  | NaN, _ | _, NaN => NaN
  | Fin a, Fin b => Fin (a * b)
  | PInf, Fin b | Fin b, PInf => inf_of (b ?= 0)
  | NInf, Fin b | Fin b, NInf => inf_of (0 ?= b)
  | PInf, PInf | NInf, NInf => PInf
  | PInf, NInf | NInf, PInf => NInf
  end.

(** Division; a zero divisor counts as [+0.0]. *)
Definition div (x y : float) : float :=
  match x, y with
  | NaN, _ | _, NaN => NaN
  | Fin a, Fin b => if Qc_eq_bool b 0 then inf_of (a ?= 0) else Fin (a / b)
  | Fin _, _ => Fin 0
  | PInf, Fin b => match b ?= 0 with Lt => NInf | _ => PInf end
  | NInf, Fin b => match b ?= 0 with Lt => PInf | _ => NInf end
  | _, _ => NaN
  end.

(** [x <= y] of IEEE-754: false as soon as one side is NaN. *)
Definition le (x y : float) : bool :=
  match x, y with
  | NaN, _ | _, NaN => false
  | NInf, _ => true
  | _, PInf => true
  | Fin a, Fin b => match a ?= b with Gt => false | _ => true end
  | _, _ => false
  end.

(** *** Integers *)

Definition wrap64 (z : Z) : Z :=
  ((z + 2 ^ 63) mod 2 ^ 64 - 2 ^ 63)%Z.

(** [np.sum] of an [int64] array. *)
Definition sum_int (a : list Z) : Z :=
  wrap64 (fold_left Z.add a 0%Z).

(** [np.arange(start, stop, 1)]. *)
Definition arange (start stop : Z) : list Z :=
  map (fun i => (start + Z.of_nat i)%Z) (seq 0 (Z.to_nat (stop - start))).

(** *** Float arrays (one-dimensional) *)

(** [np.sum] of a [float64] array. *)
Definition sum (a : list float) : float :=
  fold_left add a (Fin 0).

(** [a / s] for an array [a] and a scalar [s]. *)
Definition div_scalar (a : list float) (s : float) : list float :=
  map (fun x => div x s) a.

(** [np.zeros(n)]. *)
Definition zeros (n : nat) : list float := repeat (Fin 0) n.

(** [a[lo:hi] = v] for [0 <= lo <= hi]. *)
Definition set_slice (lo hi : nat) (v : float) (a : list float) : list float :=
  firstn lo a ++ repeat v (Nat.min hi (length a) - lo) ++ skipn hi a.

(** [np.roll(a, shift)]: [shift] is reduced modulo the length, then the last
    [shift] elements are moved to the front. *)
Definition roll {A} (a : list A) (shift : Z) : list A :=
  let n := length a in
  let s := Z.to_nat (shift mod Z.of_nat (Nat.max n 1)) in
  skipn (n - s) a ++ firstn (n - s) a.

(** [a * b] with broadcasting: equal lengths multiply elementwise, a
    one-element array is stretched, any other pair of shapes is refused. *)
Definition multiply (a b : list float) : result (list float) :=
  if Nat.eqb (length a) (length b) then
    Ok (map (fun xy => mul (fst xy) (snd xy)) (combine a b))
  else match a, b with
       | [x], _ => Ok (map (fun y => mul x y) b)
       | _, [y] => Ok (map (fun x => mul x y) a)
       | _, _ => Raise ValueError
       end.

(** [np.argmax]: the first NaN if there is one, else the first maximum. *)
Fixpoint argmax_from (a : list float) (i : nat) (mp : float) (mi : nat) : nat :=
  match a with
  | [] => mi
  | x :: r =>
      if le x mp then argmax_from r (S i) mp mi
      else if isnan x then i
      else argmax_from r (S i) x i
  end.

Definition argmax (a : list float) : result nat :=
  match a with
  | [] => Raise ValueError
  | x :: r => if isnan x then Ok 0%nat else Ok (argmax_from r 1 x 0)
  end.

(** [a[i]] for an index [i >= 0]. *)
Definition getitem {A} (a : list A) (i : nat) : result A :=
  match nth_error a i with
  | Some x => Ok x
  | None => Raise IndexError
  end.

(** [np.histogram(a, bins=bins, range=(lo, hi))[0]] for [lo < hi]: the
    values outside [lo, hi] are dropped, bin [i] is half-open except the
    last one, which includes [hi]. *)
Definition bin_index (bins : nat) (lo hi x : Qc) : nat :=
  let f_index := (x - lo) * Q2Qc (inject_Z (Z.of_nat bins)) / (hi - lo) in
  let f := Z.to_nat (Qfloor (this f_index)) in
  if Nat.eqb f bins then (bins - 1)%nat else f.

Definition in_range (lo hi x : Qc) : bool :=
  match lo ?= x, x ?= hi with
  | Gt, _ | _, Gt => false
  | _, _ => true
  end.

Definition bincount (idx : list nat) (minlength : nat) : list Z :=
  map (fun b => Z.of_nat (count_occ Nat.eq_dec idx b)) (seq 0 minlength).

Definition histogram (a : list Qc) (bins : nat) (lo hi : Qc) : list Z :=
  let keep := filter (in_range lo hi) a in
  bincount (map (bin_index bins lo hi) keep) bins.

End Np.

(* ------------------------------------------------------------------ *)
(** ** [blockchain.py] *)

Module Blockchain.

Import Np.
Open Scope Qc_scope.

(** *** Transactions as the ledger service returns them *)

(** The fields of a transaction record that the code reads: [tx['time']],
    [tx['inputs']] (only its length is used) and [out['value']] for every
    [out] of [tx['out']]. *)
Record txout : Set := { value : Z }.

Record tx : Set := {
  time : Z;
  inputs : nat;
  out : list txout
}.

(** What [requests.get] followed by [response.json()] can give: the request
    raised, or a response came back with a status code and a body that is
    either not a JSON object or a JSON object with or without the key
    ['txs']. *)
Inductive body : Set :=
  | NotJson
  | Json (txs : option (list tx)).

Inductive reply : Set :=
  | RequestFailed
  | Response (status_code : Z) (b : body).

(** The two messages of [get_last_transactions]. *)
Inductive message : Set :=
  | UnableToFetch (status_code : Z)
  | ExceptionOccurred.

(** [get_last_transactions] returns a list of transactions or, on any
    failure, a message (a Python [str]). *)
Inductive fetched : Set :=
  | Transactions (l : list tx)
  | Message (m : message).

(** [l[:limit]]. *)
Definition slice_to {A} (limit : Z) (l : list A) : list A :=
  if (0 <=? limit)%Z then firstn (Z.to_nat limit) l
  else firstn (length l - Z.to_nat (- limit)) l.

Definition get_last_transactions (r : reply) (limit : Z) : fetched :=
  match r with
  | RequestFailed => Message ExceptionOccurred
  | Response status_code b =>
      if (status_code =? 200)%Z then
        match b with
        | NotJson => Message ExceptionOccurred
        | Json (Some transactions) => Transactions (slice_to limit transactions)
        | Json None => Transactions (slice_to limit [])
        end
      else Message (UnableToFetch status_code)
  end.

(** *** The data frame of transactions *)

(** The fields of a [datetime] that the code reads, with the day number
    since 1970-01-01. *)
Record datetime : Set := {
  day : Z;
  hour : Z;
  minute : Z;
  second : Z
}.

Definition datetime_min : Z := (-62135596800)%Z.
Definition datetime_max : Z := 253402300799%Z.

Definition utcfromtimestamp (t : Z) : result datetime :=
  if ((datetime_min <=? t) && (t <=? datetime_max))%Z%bool then
    Ok {| day := (t / 86400)%Z;
          hour := (t mod 86400 / 3600)%Z;
          minute := (t mod 3600 / 60)%Z;
          second := (t mod 60)%Z |}
  else Raise RangeError.

Record row : Set := {
  Time_UTC : datetime;
  Inputs : nat;
  Outputs : nat;
  Total_BTC_Transacted : float
}.

(** A data frame built from a list of dictionaries: its rows; it has the
    four columns when there is at least one row and no column at all when
    there is none. *)
Definition dataframe : Set := list row.

Definition tx_data (t : tx) : result row :=
  dt <- utcfromtimestamp (time t) ;;
  Ok {| Time_UTC := dt;
        Inputs := inputs t;
        Outputs := length (out t);
        Total_BTC_Transacted :=
          div (of_int (fold_left Z.add (map value (out t)) 0%Z))
              (of_int 100000000) |}.

(** Iterating over a message gives its characters, and indexing a character
    with ['time'] raises [TypeError]; the messages of
    [get_last_transactions] are never empty. *)
Definition save_transactions_to_dataframe (transactions : fetched)
  : result dataframe :=
  match transactions with
  | Transactions l => mapM tx_data l
  | Message _ => Raise TypeError
  end.

(** [df["Time (UTC)"]]. *)
Definition column_Time_UTC (df : dataframe) : result (list datetime) :=
  match df with
  | [] => Raise KeyError
  | _ => Ok (map Time_UTC df)
  end.

(** *** The likelihood engine *)

(** The argument of [calculate_time_zone_probability]: an array of integer
    counts, as [np.histogram] returns, or an array of floats. *)
Inductive ndarray : Set :=
  | Int64 (a : list Z)
  | Float64 (a : list float).

(** The elements as the true division sees them. *)
Definition to_float64 (a : ndarray) : list float :=
  match a with
  | Int64 a => map of_int a
  | Float64 a => a
  end.

(** [np.sum(transaction_freq)], as the true division sees it. *)
Definition total (a : ndarray) : float :=
  match a with
  | Int64 a => of_int (sum_int a)
  | Float64 a => sum a
  end.

(** [np.array(transaction_freq) / np.sum(transaction_freq)]. *)
Definition transaction_prob (transaction_freq : ndarray) : list float :=
  div_scalar (to_float64 transaction_freq) (total transaction_freq).

Definition nighttime_inactivity : list float :=
  let z := zeros 24 in
  let z := set_slice 0 6 (Fin 1) z in
  div_scalar z (sum z).

Definition time_zones : list Z := arange (-12) 13.

(** One turn of the loop: the likelihood of the time zone [tz]. *)
Definition likelihood (p : list float) (tz : Z) : result float :=
  let shifted_prob := roll p tz in
  prod <- multiply shifted_prob nighttime_inactivity ;;
  Ok (sum prod).

(** The loop over [time_zones]. *)
Definition likelihoods (p : list float) : result (list float) :=
  mapM (likelihood p) time_zones.

Definition calculate_time_zone_probability (transaction_freq : ndarray)
  : result (list Z * list float) :=
  let p := transaction_prob transaction_freq in
  ls <- likelihoods p ;;
  let posterior_probabilities := div_scalar ls (sum ls) in
  Ok (time_zones, posterior_probabilities).

(** *** The pipeline *)

(** [dt.hour + dt.minute / 60]. *)
Definition fractional_hour (dt : datetime) : Qc :=
  Q2Qc (inject_Z (hour dt)) + Q2Qc (inject_Z (minute dt)) / Q2Qc (inject_Z 60).

(** [np.histogram(hours, bins=24, range=(0, 24))[0]]. *)
Definition transaction_freq (hours : list Qc) : list Z :=
  histogram hours 24 (Q2Qc (inject_Z 0)) (Q2Qc (inject_Z 24)).

(** Lines 158 to 165 of [guess_time_zones]: from the column of datetimes to
    the candidate time zones and their probabilities. *)
Definition probabilities_of (datetimes : list datetime)
  : result (list Z * list float) :=
  let hours := map fractional_hour datetimes in
  calculate_time_zone_probability (Int64 (transaction_freq hours)).

(** [time_zones[np.argmax(probabilities)]]. *)
Definition guessed_timezone (tzs : list Z) (probabilities : list float)
  : result Z :=
  i <- argmax probabilities ;;
  getitem tzs i.

(** Lines 158 to 168. *)
Definition guess_of (datetimes : list datetime) : result Z :=
  tp <- probabilities_of datetimes ;;
  guessed_timezone (fst tp) (snd tp).

(** [guess_time_zones], from the reply of the ledger service on. *)
Definition guess_time_zones (r : reply) : result Z :=
  let transactions := get_last_transactions r 100 in
  df_transactions <- save_transactions_to_dataframe transactions ;;
  datetimes <- column_Time_UTC df_transactions ;;
  guess_of datetimes.

End Blockchain.

(* ------------------------------------------------------------------ *)
(** ** [extract_data.py]: the clean-up of a scraped address *)

(** Lines 57 to 60 of the scraping loop, as a function of the variable
    [address]: [endswith('..')], [address[:-2]], ['..' in address] and
    [address.replace('..', '')]. *)
Module ExtractData.

Definition is_dot (c : ascii) : bool := Ascii.eqb c ".".

(** [s.endswith('..')]. *)
Fixpoint endswith_dots (s : string) : bool :=
  match s with
  | EmptyString => false
  | String c r =>
      match r with
      | EmptyString => false
      | String c' EmptyString => is_dot c && is_dot c'
      | String _ _ => endswith_dots r
      end
  end.

(** ['..' in s]. *)
Fixpoint contains_dots (s : string) : bool :=
  match s with
  | EmptyString => false
  | String c r =>
      match r with
      | EmptyString => false
      | String c' _ => (is_dot c && is_dot c') || contains_dots r
      end
  end.

(** [s[:-2]]. *)
Fixpoint drop_last_two (s : string) : string :=
  match s with
  | EmptyString => EmptyString
  | String c r =>
      match r with
      | EmptyString => EmptyString
      | String _ EmptyString => EmptyString
      | String _ _ => String c (drop_last_two r)
      end
  end.

(** [s.replace('..', '')]: the occurrences are taken from left to right and
    do not overlap. *)
Fixpoint remove_dots (s : string) : string :=
  match s with
  | EmptyString => EmptyString
  | String c r =>
      match r with
      | EmptyString => String c EmptyString
      | String c' r' =>
          if is_dot c && is_dot c' then remove_dots r'
          else String c (remove_dots r)
      end
  end.

Definition clean_address (address : string) : string :=
  if endswith_dots address then drop_last_two address
  else if contains_dots address then remove_dots address
  else address.

End ExtractData.

Import Np Blockchain.
Open Scope Qc_scope.

(* ------------------------------------------------------------------ *)
(** ** Definitions used in the statements *)

(** Sums of rationals, the finite shadow of [Np.sum]. *)
Definition Qsum (l : list Qc) : Qc := fold_left Qcplus l 0.

(** Boolean equality on floats and float arrays, to settle equations between
    concrete values by evaluation. *)
Definition float_eqb (x y : float) : bool :=
  match x, y with
  | Fin a, Fin b => Qeq_bool a b
  | PInf, PInf | NInf, NInf | NaN, NaN => true
  | _, _ => false
  end.

Fixpoint floats_eqb (a b : list float) : bool :=
  match a, b with
  | [], [] => true
  | x :: a', y :: b' => float_eqb x y && floats_eqb a' b'
  | _, _ => false
  end.

(** The inactivity template and the likelihood, on rationals. *)
Definition template : list Qc := repeat (Q2Qc (1 # 6)) 6 ++ repeat 0 18.

Definition Qdot (a b : list Qc) : Qc :=
  Qsum (map (fun xy => fst xy * snd xy) (combine a b)).

Definition Qlikelihood (p : list Qc) (k : Z) : Qc := Qdot (roll p k) template.

Definition Qlikelihoods (p : list Qc) : list Qc := map (Qlikelihood p) time_zones.

Definition Qposterior (p : list Qc) : list Qc :=
  map (fun l => l / Qsum (Qlikelihoods p)) (Qlikelihoods p).

(** Sums of integers without wrap-around. *)
Definition Zsum (a : list Z) : Z := fold_left Z.add a 0%Z.

(** An activity histogram: 24 counts, none negative, whose total fits the
    [int64] of the array. *)
Definition is_histogram (a : list Z) : Prop :=
  length a = 24%nat /\ Forall (fun c => (0 <= c)%Z) a /\ (Zsum a < 2 ^ 63)%Z.

(** The activity probability vector of a histogram, on rationals. *)
Definition Qprob (a : list Z) : list Qc :=
  map (fun c => Q2Qc (inject_Z c) / Q2Qc (inject_Z (Zsum a))) a.

(** [j] is the position of the first maximum of [l]. *)
Definition first_max (l : list Qc) (j : nat) : Prop :=
  (j < length l)%nat
  /\ (forall i, (i < length l)%nat -> nth i l 0 <= nth j l 0)
  /\ (forall i, (i < j)%nat -> nth i l 0 < nth j l 0).

(** NaN or an infinity. *)
Definition not_finite (x : float) : Prop := isfinite x = false.

(** The description of the likelihood, in its own words: the rotated copy
    of [p] has the element of index [i] at index [(i + k) mod 24]; the
    template is 1/6 at indices 0..5 and 0 at indices 6..23; the likelihood
    is the sum of the elementwise products. *)
Module Described.

Fixpoint set_nth (n : nat) (v : float) (l : list float) : list float :=
  match l, n with
  | [], _ => []
  | _ :: r, O => v :: r
  | x :: r, S n' => x :: set_nth n' v r
  end.

Definition rotate (p : list float) (k : Z) : list float :=
  fold_left
    (fun r i => set_nth (Z.to_nat ((Z.of_nat i + k) mod 24)) (nth i p NaN) r)
    (seq 0 24) (repeat NaN 24).

Definition template : list float :=
  map (fun i => if (i <? 6)%nat then Fin (Q2Qc (1 # 6)) else Fin 0) (seq 0 24).

Definition dot (a b : list float) : float :=
  fold_left (fun acc i => add acc (mul (nth i a NaN) (nth i b NaN)))
    (seq 0 24) (Fin 0).

Definition likelihood (p : list float) (k : Z) : float :=
  dot (rotate p k) template.

End Described.

(** An array-like with 1 in hour 0, -6 in hour 17 and 6 in hour 20 (total
    1).  Its likelihoods are -1 at offset -12, 0 at -11..-1, 1/6 at 0..3,
    7/6 at 4 and 5, 1 at 6, 0 at 7..9 and -1 at 10..12: they add up to
    zero, and they do so in binary64 as well (the products with 6 and -6 are
    exactly 1 and -1, and the four sixths cancel against the two 7/6). *)
Definition cancelling : ndarray :=
  Int64 ([1] ++ repeat 0 16 ++ [-6; 0; 0; 6] ++ repeat 0 3)%Z.

(** [c * hist] for a Python [int] and for a Python [float] [c]. *)
Definition scale_int (c : Z) (a : list Z) : ndarray :=
  Int64 (map (Z.mul c) a).

Definition scale_float (c : Qc) (a : list Z) : ndarray :=
  Float64 (map (fun x => mul (Fin c) (of_int x)) a).

(** Sample inputs. *)
Definition noon : datetime :=
  {| day := 0; hour := 12; minute := 30; second := 0 |}.

Definition dusk : datetime :=
  {| day := 3; hour := 19; minute := 5; second := 59 |}.

(** What [utcfromtimestamp] guarantees of the fields the code reads. *)
Definition valid_datetime (dt : datetime) : Prop :=
  (0 <= hour dt < 24)%Z /\ (0 <= minute dt < 60)%Z.

Definition sample_txs : list tx :=
  [ {| time := 1700000000; inputs := 1; out := [ {| value := 5000 |} ] |};
    {| time := 1700003600; inputs := 2;
       out := [ {| value := 7 |}; {| value := 12 |} ] |} ].

Definition sample_rows : dataframe :=
  match save_transactions_to_dataframe (Transactions sample_txs) with
  | Ok df => df
  | Raise _ => []
  end.

(** The number of transactions that the rotation by [k] brings to the hours
    0 to 5. *)
Definition night_activity (a : list Z) (k : Z) : Z :=
  Zsum (firstn 6 (roll a k)).

(** Counts 1, 1, 2, 2, 1, 1 in the hours 2, 3, 5, 6, 8 and 15. *)
Definition three_way_tie : list Z :=
  [0; 0; 1; 1; 0; 2; 2; 0; 1; 0; 0; 0; 0; 0; 0; 1; 0; 0; 0; 0; 0; 0; 0; 0]%Z.

(** The timestamps [utcfromtimestamp] accepts. *)
Definition in_datetime_range (t : tx) : Prop :=
  (datetime_min <= time t <= datetime_max)%Z.

(** [t'] is [t] moved by a whole number of days. *)
Definition same_time_of_day (t t' : tx) : Prop :=
  exists d, time t' = (time t + 86400 * d)%Z.

Definition sample_txs_later : list tx :=
  [ {| time := 1700000000 + 86400 * 3; inputs := 1;
       out := [ {| value := 5000 |} ] |};
    {| time := 1700003600 + 86400 * (-400); inputs := 2;
       out := [ {| value := 7 |}; {| value := 12 |} ] |} ].

(* ================================================================== *)
(** * Lemmas and theorems *)


(* ------------------------------------------------------------------ *)
(** ** Facts about rationals and floats *)

(** Turns a goal on canonical rationals into one on plain rationals. *)
Ltac qc2q :=
  unfold Qcle, Qclt, Qcplus, Qcmult, Qcminus, Qcopp, Qcinv, Q2Qc in *;
  cbn [this] in *; rewrite ?Qred_correct in *.

Section QcFacts.

Lemma Qc_eq_bool_refl (x : Qc) : Qc_eq_bool x x = true.
Proof.
  unfold Qc_eq_bool. destruct (Qc_eq_dec x x) as [_ | n]; [reflexivity | now elim n].
Qed.

Lemma Qc_eq_bool_neq (x y : Qc) : x <> y -> Qc_eq_bool x y = false.
Proof.
  intros n. unfold Qc_eq_bool. destruct (Qc_eq_dec x y); [contradiction | reflexivity].
Qed.

Lemma Qccompare_refl (x : Qc) : (x ?= x) = Eq.
Proof. now apply Qceq_alt. Qed.

Lemma Qccompare_lt (x y : Qc) : x < y -> (x ?= y) = Lt.
Proof. intros H. now apply Qclt_alt. Qed.

Lemma Qccompare_gt (x y : Qc) : y < x -> (x ?= y) = Gt.
Proof. intros H. now apply Qcgt_alt. Qed.

Lemma Qc_of_Z_inj (a b : Z) : Q2Qc (inject_Z a) = Q2Qc (inject_Z b) -> a = b.
Proof.
  intros H. apply Q2Qc_eq_iff in H. unfold Qeq in H. simpl in H. lia.
Qed.

Lemma Qc_of_Z_pos (a : Z) : (0 < a)%Z -> 0 < Q2Qc (inject_Z a).
Proof.
  intros H. qc2q. unfold Qlt. simpl. lia.
Qed.

Lemma Qc_of_Z_nonneg (a : Z) : (0 <= a)%Z -> 0 <= Q2Qc (inject_Z a).
Proof.
  intros H. qc2q. unfold Qle. simpl. lia.
Qed.

Lemma Qc_of_Z_add (a b : Z) :
  Q2Qc (inject_Z (a + b)) = Q2Qc (inject_Z a) + Q2Qc (inject_Z b).
Proof.
  apply Qc_is_canon. unfold Qcplus, Q2Qc. cbn [this]. rewrite !Qred_correct.
  rewrite inject_Z_plus. reflexivity.
Qed.

Lemma Qc_of_Z_mul (a b : Z) :
  Q2Qc (inject_Z (a * b)) = Q2Qc (inject_Z a) * Q2Qc (inject_Z b).
Proof.
  apply Qc_is_canon. unfold Qcmult, Q2Qc. cbn [this]. rewrite !Qred_correct.
  rewrite inject_Z_mult. reflexivity.
Qed.

Lemma Qcinv_pos (b : Qc) : 0 < b -> 0 < / b.
Proof.
  intros Hb. qc2q. now apply Qinv_lt_0_compat.
Qed.

Lemma Qcdiv_nonneg (a b : Qc) : 0 <= a -> 0 < b -> 0 <= a / b.
Proof.
  intros Ha Hb. apply Qcinv_pos in Hb. unfold Qcdiv. qc2q. nra.
Qed.

Lemma Qcdiv_pos (a b : Qc) : 0 < a -> 0 < b -> 0 < a / b.
Proof.
  intros Ha Hb. apply Qcinv_pos in Hb. unfold Qcdiv. qc2q. nra.
Qed.

Lemma Qcplus_nonneg (a b : Qc) : 0 <= a -> 0 <= b -> 0 <= a + b.
Proof. intros Ha Hb. qc2q. lra. Qed.

Lemma Qcplus_pos_nonneg (a b : Qc) : 0 < a -> 0 <= b -> 0 < a + b.
Proof. intros Ha Hb. qc2q. lra. Qed.

Lemma Qcplus_nonneg_pos (a b : Qc) : 0 <= a -> 0 < b -> 0 < a + b.
Proof. intros Ha Hb. qc2q. lra. Qed.

Lemma Qclt_neq (a b : Qc) : a < b -> b <> a.
Proof.
  intros H E. subst. exact (Qclt_not_le _ _ H (Qcle_refl _)).
Qed.

End QcFacts.

Section FloatFacts.

Lemma div_by_zero_not_finite (x : float) : isfinite (div x (Fin 0)) = false.
Proof.
  destruct x as [a | | |]; simpl; try reflexivity.
  now destruct (a ?= 0).
Qed.

Lemma div_not_finite (x s : float) :
  isfinite x = false -> isfinite (div x s) = false.
Proof.
  destruct x; try discriminate; intros _; destruct s as [b | | |]; simpl;
    try reflexivity; now destruct (b ?= 0).
Qed.

Lemma mul_not_finite_zero (x : float) :
  isfinite x = false -> mul x (Fin 0) = NaN.
Proof. destruct x; try discriminate; reflexivity. Qed.

Lemma div_by_nan (x : float) : div x NaN = NaN.
Proof. now destruct x. Qed.

Lemma add_nan_r (x : float) : add x NaN = NaN.
Proof. now destruct x. Qed.

Lemma fold_add_nan (l : list float) : fold_left add l NaN = NaN.
Proof. induction l; simpl; auto. Qed.

Lemma fold_add_in_nan (l : list float) (acc : float) :
  In NaN l -> fold_left add l acc = NaN.
Proof.
  revert acc. induction l as [| x l IH]; intros acc; simpl; [tauto |].
  intros [-> | H].
  - rewrite add_nan_r. apply fold_add_nan.
  - now apply IH.
Qed.

Lemma sum_in_nan (l : list float) : In NaN l -> sum l = NaN.
Proof. apply fold_add_in_nan. Qed.

Lemma fold_add_fin (l : list Qc) (acc : Qc) :
  fold_left add (map Fin l) (Fin acc) = Fin (fold_left Qcplus l acc).
Proof.
  revert acc. induction l as [| x l IH]; intros acc; simpl; [reflexivity |].
  apply IH.
Qed.

Lemma sum_fin (l : list Qc) : sum (map Fin l) = Fin (Qsum l).
Proof. apply fold_add_fin. Qed.

Lemma fold_Qcplus_acc (l : list Qc) (acc : Qc) :
  fold_left Qcplus l acc = acc + Qsum l.
Proof.
  unfold Qsum. revert acc. induction l as [| x l IH]; intros acc; simpl.
  - ring.
  - rewrite IH, (IH (0 + x)). ring.
Qed.

Lemma Qsum_cons (x : Qc) (l : list Qc) : Qsum (x :: l) = x + Qsum l.
Proof. unfold Qsum at 1. simpl. rewrite fold_Qcplus_acc. ring. Qed.

Lemma Qsum_app (l1 l2 : list Qc) : Qsum (l1 ++ l2) = Qsum l1 + Qsum l2.
Proof.
  induction l1 as [| x l1 IH]; simpl.
  - unfold Qsum at 2. simpl. ring.
  - rewrite !Qsum_cons, IH. ring.
Qed.

Lemma Qsum_nonneg (l : list Qc) : Forall (fun x => 0 <= x) l -> 0 <= Qsum l.
Proof.
  induction 1 as [| x l Hx _ IH].
  - apply Qcle_refl.
  - rewrite Qsum_cons. now apply Qcplus_nonneg.
Qed.

Lemma Qsum_map_div (l : list Qc) (s : Qc) :
  Qsum (map (fun x => x / s) l) = Qsum l / s.
Proof.
  induction l as [| x l IH]; simpl.
  - unfold Qsum. simpl. unfold Qcdiv. ring.
  - rewrite !Qsum_cons, IH. unfold Qcdiv. ring.
Qed.

Lemma div_scalar_fin (l : list Qc) (s : Qc) :
  s <> 0 -> div_scalar (map Fin l) (Fin s) = map Fin (map (fun x => x / s) l).
Proof.
  intros Hs. unfold div_scalar. rewrite !map_map. apply map_ext. intros a.
  simpl. now rewrite Qc_eq_bool_neq.
Qed.

Lemma roll_map {A B} (f : A -> B) (a : list A) (k : Z) :
  roll (map f a) k = map f (roll a k).
Proof.
  unfold roll. rewrite length_map, map_app, skipn_map, firstn_map. reflexivity.
Qed.

Lemma length_roll {A} (a : list A) (k : Z) : length (roll a k) = length a.
Proof.
  unfold roll. rewrite length_app, length_skipn, length_firstn. lia.
Qed.

Lemma multiply_fin (a b : list Qc) :
  length a = length b ->
  multiply (map Fin a) (map Fin b)
  = Ok (map Fin (map (fun xy => fst xy * snd xy) (combine a b))).
Proof.
  intros H. unfold multiply. rewrite !length_map, H, Nat.eqb_refl. f_equal.
  clear H. revert b. induction a as [| x a IH]; intros [| y b]; simpl; auto.
  now rewrite IH.
Qed.

End FloatFacts.

Section Decide.

Lemma float_eqb_eq (x y : float) : float_eqb x y = true -> x = y.
Proof.
  destruct x as [a | | |], y as [b | | |]; simpl; try discriminate; auto.
  intros H. f_equal. apply Qc_is_canon. now apply Qeq_bool_iff.
Qed.

Lemma floats_eqb_eq (a b : list float) : floats_eqb a b = true -> a = b.
Proof.
  revert b. induction a as [| x a IH]; intros [| y b]; simpl;
    try discriminate; auto.
  intros H. apply andb_prop in H as [H1 H2].
  f_equal; [now apply float_eqb_eq | now apply IH].
Qed.

End Decide.

(* ------------------------------------------------------------------ *)
(** ** The likelihood engine on finite values *)

(** Splits a list of known length 24 into its elements. *)
Ltac list24 p :=
  do 24 (destruct p as [| ? p]; [discriminate |]);
  destruct p; [| discriminate].

(** Evaluates every [roll] of the goal that has a concrete shift. *)
Ltac eval_rolls :=
  repeat match goal with
    | |- context [roll ?l ?k] =>
        let r := eval vm_compute in (roll l k) in change (roll l k) with r
    end.

Section Engine.

Lemma nighttime_inactivity_eq : nighttime_inactivity = map Fin template.
Proof. apply floats_eqb_eq. vm_compute. reflexivity. Qed.

Lemma time_zones_eq :
  time_zones = [-12; -11; -10; -9; -8; -7; -6; -5; -4; -3; -2; -1; 0;
                1; 2; 3; 4; 5; 6; 7; 8; 9; 10; 11; 12]%Z.
Proof. reflexivity. Qed.

Lemma sixth_six : (1 + 1 + 1 + 1 + 1 + 1) * Q2Qc (1 # 6) = 1.
Proof. apply Qc_is_canon. reflexivity. Qed.

Lemma sixth_pos : 0 < Q2Qc (1 # 6).
Proof. reflexivity. Qed.

Lemma mapM_ok {A B} (f : A -> result B) (g : A -> B) (l : list A) :
  (forall x, In x l -> f x = Ok (g x)) -> mapM f l = Ok (map g l).
Proof.
  induction l as [| x l IH]; intros H; simpl; [reflexivity |].
  rewrite (H x (or_introl eq_refl)). simpl.
  rewrite IH by (intros y Hy; apply H; now right). reflexivity.
Qed.

Lemma likelihood_fin (p : list Qc) (k : Z) :
  length p = 24%nat ->
  likelihood (map Fin p) k = Ok (Fin (Qlikelihood p k)).
Proof.
  intros H. unfold likelihood. rewrite nighttime_inactivity_eq, roll_map.
  rewrite multiply_fin by (now rewrite length_roll, H). simpl.
  now rewrite sum_fin.
Qed.

Lemma likelihoods_fin (p : list Qc) :
  length p = 24%nat ->
  likelihoods (map Fin p) = Ok (map Fin (Qlikelihoods p)).
Proof.
  intros H. unfold likelihoods, Qlikelihoods. rewrite map_map.
  apply mapM_ok. intros k _. now apply likelihood_fin.
Qed.

(** The raw likelihoods add up to the total mass plus one sixth of the mass
    of hours 12 to 17: offsets -12 and 12 are the same rotation, so that
    rotation is counted twice. *)
Lemma Qsum_Qlikelihoods (p : list Qc) :
  length p = 24%nat ->
  Qsum (Qlikelihoods p)
  = Qsum p + Q2Qc (1 # 6) * Qsum (firstn 6 (skipn 12 p)).
Proof.
  intros H. list24 p. clear H.
  pose proof sixth_six as H6. set (t := Q2Qc (1 # 6)) in *.
  unfold Qlikelihoods. rewrite time_zones_eq. cbv [map Qlikelihood].
  eval_rolls.
  cbv [Qdot combine map fst snd Qsum fold_left template repeat app firstn skipn].
  fold t. ring [H6].
Qed.

End Engine.

(* ------------------------------------------------------------------ *)
(** ** Histograms *)

Section Histograms.

Lemma fold_Zadd_acc (a : list Z) (acc : Z) :
  fold_left Z.add a acc = (acc + Zsum a)%Z.
Proof.
  unfold Zsum. revert acc. induction a as [| x a IH]; intros acc; simpl.
  - lia.
  - rewrite IH, (IH x). lia.
Qed.

Lemma Zsum_cons (x : Z) (a : list Z) : Zsum (x :: a) = (x + Zsum a)%Z.
Proof. unfold Zsum at 1. simpl. now rewrite fold_Zadd_acc. Qed.

Lemma Zsum_app (a b : list Z) : Zsum (a ++ b) = (Zsum a + Zsum b)%Z.
Proof.
  induction a as [| x a IH]; simpl; [reflexivity |].
  rewrite !Zsum_cons, IH. lia.
Qed.

Lemma Zsum_nonneg (a : list Z) :
  Forall (fun c => (0 <= c)%Z) a -> (0 <= Zsum a)%Z.
Proof.
  induction 1 as [| x a Hx _ IH]; [reflexivity |].
  rewrite Zsum_cons. lia.
Qed.

Lemma Zsum_ge_each (a : list Z) (x : Z) :
  Forall (fun c => (0 <= c)%Z) a -> In x a -> (x <= Zsum a)%Z.
Proof.
  induction 1 as [| y a Hy Ha IH]; simpl; [tauto |].
  rewrite Zsum_cons. pose proof (Zsum_nonneg Ha). intros [-> | Hin]; [lia |].
  specialize (IH Hin). lia.
Qed.

Lemma wrap64_small (z : Z) : (- 2 ^ 63 <= z < 2 ^ 63)%Z -> wrap64 z = z.
Proof.
  intros H. unfold wrap64. rewrite Z.mod_small; lia.
Qed.

Lemma sum_int_histogram (a : list Z) : is_histogram a -> sum_int a = Zsum a.
Proof.
  intros (_ & Hpos & Hlt). unfold sum_int. fold (Zsum a).
  apply wrap64_small. pose proof (Zsum_nonneg Hpos). lia.
Qed.

Lemma Qsum_of_Z (a : list Z) :
  Qsum (map (fun c => Q2Qc (inject_Z c)) a) = Q2Qc (inject_Z (Zsum a)).
Proof.
  induction a as [| x a IH]; simpl; [reflexivity |].
  now rewrite Qsum_cons, Zsum_cons, Qc_of_Z_add, IH.
Qed.

Lemma Qc_of_Z_neq0 (z : Z) : z <> 0%Z -> Q2Qc (inject_Z z) <> 0.
Proof. intros H E. apply H. now apply Qc_of_Z_inj. Qed.

Lemma length_Qprob (a : list Z) : length (Qprob a) = length a.
Proof. apply length_map. Qed.

Lemma Qsum_Qprob (a : list Z) : Zsum a <> 0%Z -> Qsum (Qprob a) = 1.
Proof.
  intros H. unfold Qprob.
  rewrite <- (map_map (fun c => Q2Qc (inject_Z c))
                      (fun q => q / Q2Qc (inject_Z (Zsum a)))).
  rewrite Qsum_map_div, Qsum_of_Z. field. now apply Qc_of_Z_neq0.
Qed.

Lemma Qprob_nonneg (a : list Z) :
  Forall (fun c => (0 <= c)%Z) a -> Zsum a <> 0%Z ->
  Forall (fun q => 0 <= q) (Qprob a).
Proof.
  intros Hpos Hs. pose proof (Zsum_nonneg Hpos) as H0.
  unfold Qprob. apply Forall_map. revert Hpos. apply Forall_impl.
  intros c Hc. apply Qcdiv_nonneg.
  - now apply Qc_of_Z_nonneg.
  - apply Qc_of_Z_pos. lia.
Qed.

Lemma transaction_prob_fin (a : list Z) :
  sum_int a <> 0%Z ->
  transaction_prob (Int64 a)
  = map Fin (map (fun c => Q2Qc (inject_Z c) / Q2Qc (inject_Z (sum_int a))) a).
Proof.
  intros H. unfold transaction_prob, total, to_float64, of_int.
  rewrite <- (map_map (fun c => Q2Qc (inject_Z c)) Fin).
  rewrite div_scalar_fin by now apply Qc_of_Z_neq0.
  f_equal. apply map_map.
Qed.

Lemma transaction_prob_histogram (a : list Z) :
  is_histogram a -> Zsum a <> 0%Z ->
  transaction_prob (Int64 a) = map Fin (Qprob a).
Proof.
  intros Ha Hs. pose proof (sum_int_histogram Ha) as E.
  rewrite transaction_prob_fin by congruence.
  unfold Qprob. now rewrite E.
Qed.

End Histograms.

(** ** The posterior of a finite probability vector *)

Section Posterior.

Lemma Forall_roll {A} (P : A -> Prop) (a : list A) (k : Z) :
  Forall P a -> Forall P (roll a k).
Proof.
  intros H. unfold roll.
  set (n := (length a - _)%nat).
  rewrite <- (firstn_skipn n a) in H. apply Forall_app in H as [H1 H2].
  apply Forall_app. now split.
Qed.

Lemma Qdot_nonneg (a b : list Qc) :
  Forall (fun q => 0 <= q) a -> Forall (fun q => 0 <= q) b -> 0 <= Qdot a b.
Proof.
  intros Ha. revert b. unfold Qdot.
  induction Ha as [| x a Hx Ha IH]; intros b Hb; [apply Qcle_refl |].
  destruct Hb as [| y b Hy Hb]; [apply Qcle_refl |].
  simpl. rewrite Qsum_cons. apply Qcplus_nonneg; [| now apply IH].
  qc2q. nra.
Qed.

Lemma template_nonneg : Forall (fun q => 0 <= q) template.
Proof. unfold template. simpl. repeat constructor; discriminate. Qed.

Lemma Qlikelihood_nonneg (p : list Qc) (k : Z) :
  Forall (fun q => 0 <= q) p -> 0 <= Qlikelihood p k.
Proof.
  intros H. apply Qdot_nonneg; [now apply Forall_roll | apply template_nonneg].
Qed.

Lemma Qlikelihoods_nonneg (p : list Qc) :
  Forall (fun q => 0 <= q) p -> Forall (fun q => 0 <= q) (Qlikelihoods p).
Proof.
  intros H. unfold Qlikelihoods. apply Forall_map, Forall_forall.
  intros k _. now apply Qlikelihood_nonneg.
Qed.

Lemma Forall_firstn {A} (P : A -> Prop) (n : nat) (a : list A) :
  Forall P a -> Forall P (firstn n a).
Proof.
  intros H. rewrite <- (firstn_skipn n a) in H. now apply Forall_app in H.
Qed.

Lemma Forall_skipn {A} (P : A -> Prop) (n : nat) (a : list A) :
  Forall P a -> Forall P (skipn n a).
Proof.
  intros H. rewrite <- (firstn_skipn n a) in H. now apply Forall_app in H.
Qed.

(** With a probability vector, the raw likelihoods add up to at least 1. *)
Lemma Qsum_Qlikelihoods_pos (p : list Qc) :
  length p = 24%nat -> Forall (fun q => 0 <= q) p -> Qsum p = 1 ->
  0 < Qsum (Qlikelihoods p).
Proof.
  intros Hl Hp H1. rewrite Qsum_Qlikelihoods, H1 by assumption.
  assert (H : 0 <= Qsum (firstn 6 (skipn 12 p))).
  { now apply Qsum_nonneg, Forall_firstn, Forall_skipn. }
  pose proof sixth_pos as Ht. set (t := Q2Qc (1 # 6)) in *.
  qc2q. nra.
Qed.

Lemma calculate_fin (tf : ndarray) (p : list Qc) :
  transaction_prob tf = map Fin p -> length p = 24%nat ->
  Qsum (Qlikelihoods p) <> 0 ->
  calculate_time_zone_probability tf = Ok (time_zones, map Fin (Qposterior p)).
Proof.
  intros Hp Hl Hs. unfold calculate_time_zone_probability.
  rewrite Hp, likelihoods_fin by assumption. cbn [bind].
  now rewrite sum_fin, div_scalar_fin.
Qed.

Lemma Qsum_Qposterior (p : list Qc) :
  Qsum (Qlikelihoods p) <> 0 -> Qsum (Qposterior p) = 1.
Proof.
  intros H. unfold Qposterior. rewrite Qsum_map_div. now field.
Qed.

Lemma length_Qposterior (p : list Qc) : length (Qposterior p) = 25%nat.
Proof. unfold Qposterior, Qlikelihoods. now rewrite !length_map. Qed.

Lemma Qposterior_nonneg (p : list Qc) :
  Forall (fun q => 0 <= q) p -> 0 < Qsum (Qlikelihoods p) ->
  Forall (fun q => 0 <= q) (Qposterior p).
Proof.
  intros Hp Hs. unfold Qposterior. apply Forall_map.
  generalize (Qlikelihoods_nonneg Hp). apply Forall_impl.
  intros l Hl. now apply Qcdiv_nonneg.
Qed.

Lemma calculate_histogram (a : list Z) :
  is_histogram a -> Zsum a <> 0%Z ->
  calculate_time_zone_probability (Int64 a)
  = Ok (time_zones, map Fin (Qposterior (Qprob a)))
  /\ 0 < Qsum (Qlikelihoods (Qprob a)).
Proof.
  intros Ha Hs. pose proof Ha as (Hl & Hpos & _).
  assert (Hp : 0 < Qsum (Qlikelihoods (Qprob a))).
  { apply Qsum_Qlikelihoods_pos.
    - now rewrite length_Qprob.
    - now apply Qprob_nonneg.
    - now apply Qsum_Qprob. }
  split; [| exact Hp].
  apply calculate_fin.
  - now apply transaction_prob_histogram.
  - now rewrite length_Qprob.
  - now apply Qclt_neq.
Qed.

End Posterior.

(* ------------------------------------------------------------------ *)
(** ** [np.argmax] and the selection *)

Section Argmax.

Lemma le_fin_true (x m : Qc) : le (Fin x) (Fin m) = true -> x <= m.
Proof.
  simpl. destruct (x ?= m) eqn:E; try discriminate; intros _.
  - apply Qceq_alt in E. subst. apply Qcle_refl.
  - apply Qclt_alt in E. now apply Qclt_le_weak.
Qed.

Lemma le_fin_false (x m : Qc) : le (Fin x) (Fin m) = false -> m < x.
Proof.
  simpl. destruct (x ?= m) eqn:E; try discriminate; intros _.
  now apply Qcgt_alt in E.
Qed.

Lemma argmax_from_fin (r pre : list Qc) (m : Qc) (mi : nat) :
  (mi < length pre)%nat ->
  nth mi pre 0 = m ->
  (forall i, (i < length pre)%nat -> nth i pre 0 <= m) ->
  (forall i, (i < mi)%nat -> nth i pre 0 < m) ->
  first_max (pre ++ r) (argmax_from (map Fin r) (length pre) (Fin m) mi).
Proof.
  revert pre m mi. induction r as [| x r IH]; intros pre m mi Hmi Hm Hle Hlt.
  - simpl. rewrite app_nil_r. subst m. repeat split; auto.
  - cbn [map argmax_from].
    replace (pre ++ x :: r) with ((pre ++ [x]) ++ r)
      by (now rewrite <- app_assoc).
    replace (S (length pre)) with (length (pre ++ [x]))
      by (rewrite length_app; simpl; lia).
    destruct (le (Fin x) (Fin m)) eqn:E.
    + apply le_fin_true in E. apply IH.
      * rewrite length_app. simpl. lia.
      * now rewrite app_nth1.
      * intros i Hi. rewrite length_app in Hi. simpl in Hi.
        destruct (Nat.eq_dec i (length pre)) as [-> | Hn].
        -- now rewrite nth_middle.
        -- rewrite app_nth1 by lia. apply Hle. lia.
      * intros i Hi. rewrite app_nth1 by lia. now apply Hlt.
    + apply le_fin_false in E. cbn [isnan].
      rewrite length_app. simpl length.
      replace (length pre + 1)%nat with (length (pre ++ [x]))
        by (rewrite length_app; reflexivity).
      apply IH.
      * rewrite length_app. simpl. lia.
      * apply nth_middle.
      * intros i Hi. rewrite length_app in Hi. simpl in Hi.
        destruct (Nat.eq_dec i (length pre)) as [-> | Hn].
        -- rewrite nth_middle. apply Qcle_refl.
        -- rewrite app_nth1 by lia. apply Qclt_le_weak.
           apply Qcle_lt_trans with m; [apply Hle; lia | exact E].
      * intros i Hi. rewrite app_nth1 by lia.
        apply Qcle_lt_trans with m; [apply Hle; lia | exact E].
Qed.

(** On finite values [np.argmax] returns the position of the first
    maximum. *)
Lemma argmax_fin (l : list Qc) :
  l <> [] -> exists j, argmax (map Fin l) = Ok j /\ first_max l j.
Proof.
  destruct l as [| x r]; [congruence | intros _].
  cbn [map argmax isnan]. eexists. split; [reflexivity |].
  apply (argmax_from_fin r [x] (m := x) (mi := 0)); simpl.
  - lia.
  - reflexivity.
  - intros [| i] Hi; [apply Qcle_refl | lia].
  - intros i Hi. lia.
Qed.

Lemma getitem_time_zones (j : nat) :
  (j < 25)%nat -> getitem time_zones j = Ok (Z.of_nat j - 12)%Z.
Proof.
  intros H. do 25 (destruct j as [| j]; [reflexivity |]). lia.
Qed.

Lemma getitem_time_zones_range (j : nat) (g : Z) :
  getitem time_zones j = Ok g -> (-12 <= g <= 12)%Z.
Proof.
  intros H. destruct (Nat.lt_ge_cases j 25) as [Hj | Hj].
  - rewrite getitem_time_zones in H by assumption. injection H as <-. lia.
  - unfold getitem in H.
    assert (E : nth_error time_zones j = None) by now apply nth_error_None.
    rewrite E in H. discriminate.
Qed.

Lemma Qsum_nonpos (l : list Qc) : (forall x, In x l -> x <= 0) -> Qsum l <= 0.
Proof.
  induction l as [| x l IH]; intros H.
  - apply Qcle_refl.
  - rewrite Qsum_cons.
    assert (Hx : x <= 0) by (apply H; now left).
    assert (Hl : Qsum l <= 0) by (apply IH; intros y Hy; apply H; now right).
    qc2q. lra.
Qed.

End Argmax.

(* ------------------------------------------------------------------ *)
(** ** Division by a zero total *)

Section ZeroTotal.

Lemma transaction_prob_zero_total (tf : ndarray) :
  total tf = Fin 0 -> Forall not_finite (transaction_prob tf).
Proof.
  intros H. unfold transaction_prob, div_scalar. rewrite H.
  apply Forall_map, Forall_forall. intros x _. apply div_by_zero_not_finite.
Qed.

Lemma length_transaction_prob (tf : ndarray) :
  length (transaction_prob tf) = length (to_float64 tf).
Proof. apply length_map. Qed.

(** A vector with nothing finite in it scores NaN for every time zone: the
    products with the zero entries of the template are NaN. *)
Lemma likelihood_not_finite (p : list float) (k : Z) :
  length p = 24%nat -> Forall not_finite p -> likelihood p k = Ok NaN.
Proof.
  intros Hl Hp. unfold likelihood.
  pose proof (Forall_roll k Hp) as Hr.
  pose proof (length_roll p k) as Hlr. rewrite Hl in Hlr.
  generalize dependent (roll p k). intros r Hr Hlr.
  rewrite nighttime_inactivity_eq. list24 r.
  unfold multiply. cbn [bind length map template repeat app Nat.eqb combine fst snd].
  f_equal. apply sum_in_nan.
  do 6 right. left.
  apply mul_not_finite_zero.
  do 6 (apply Forall_inv_tail in Hr). now apply Forall_inv in Hr.
Qed.

Lemma likelihoods_not_finite (p : list float) :
  length p = 24%nat -> Forall not_finite p ->
  likelihoods p = Ok (repeat NaN 25).
Proof.
  intros Hl Hp. unfold likelihoods.
  rewrite (mapM_ok (likelihood p) (fun _ => NaN)); [reflexivity |].
  intros k _. now apply likelihood_not_finite.
Qed.

End ZeroTotal.

(** C1, as the code has it: when the total of a 24-bin histogram is zero,
    [calculate_time_zone_probability] raises nothing; it returns the 25
    candidate offsets with a posterior whose 25 entries are all NaN. *)
Theorem zero_total_gives_nan_posterior (tf : ndarray) :
  length (to_float64 tf) = 24%nat ->
  total tf = Fin 0 ->
  calculate_time_zone_probability tf = Ok (time_zones, repeat NaN 25).
Proof.
  intros Hl Ht. unfold calculate_time_zone_probability.
  rewrite likelihoods_not_finite.
  - reflexivity.
  - now rewrite length_transaction_prob.
  - now apply transaction_prob_zero_total.
Qed.

Lemma zero_total_gives_nan_posterior_witness :
  calculate_time_zone_probability (Int64 (repeat 0%Z 24))
  = Ok (time_zones, repeat NaN 25).
Proof.
  apply (zero_total_gives_nan_posterior (Int64 (repeat 0%Z 24)));
    reflexivity.
Defined.

(** C1 fails as stated: the histogram of an empty timestamp sequence (24
    zeros) has total zero, and the normalization step does not fail on
    it. *)
Lemma zero_total_does_not_raise :
  total (Int64 (repeat 0%Z 24)) = Fin 0
  /\ ~ raises (calculate_time_zone_probability (Int64 (repeat 0%Z 24))).
Proof.
  split; [reflexivity |]. intros [e H]. vm_compute in H. discriminate.
Qed.

(* ------------------------------------------------------------------ *)
(** ** The posterior of a histogram *)

(** C3: for every histogram with a non-zero total the call succeeds, and in
    the posterior it returns every probability is non-negative and the 25
    probabilities add up to 1 (exact arithmetic). *)
Theorem posterior_is_distribution (a : list Z) :
  is_histogram a -> sum_int a <> 0%Z ->
  exists post,
    calculate_time_zone_probability (Int64 a) = Ok (time_zones, post)
    /\ length post = 25%nat
    /\ Forall (fun x => le (Fin 0) x = true) post
    /\ sum post = Fin 1.
Proof.
  intros Ha Hs. rewrite (sum_int_histogram Ha) in Hs.
  destruct (calculate_histogram Ha Hs) as [E Hpos].
  exists (map Fin (Qposterior (Qprob a))). split; [exact E |].
  destruct Ha as (Hl & Hnn & _).
  split; [| split].
  - now rewrite length_map, length_Qposterior.
  - apply Forall_map.
    generalize (Qposterior_nonneg (Qprob_nonneg Hnn Hs) Hpos).
    apply Forall_impl. intros q Hq. simpl.
    destruct (0 ?= q) eqn:C; try reflexivity.
    apply Qcgt_alt in C. now apply Qclt_not_le in C.
  - rewrite sum_fin. f_equal. apply Qsum_Qposterior. now apply Qclt_neq.
Qed.

Lemma posterior_is_distribution_witness :
  exists post,
    calculate_time_zone_probability
      (Int64 ([3; 0; 1; 0; 0; 2] ++ repeat 1 18)%Z) = Ok (time_zones, post)
    /\ length post = 25%nat
    /\ Forall (fun x => le (Fin 0) x = true) post
    /\ sum post = Fin 1.
Proof.
  apply (@posterior_is_distribution ([3; 0; 1; 0; 0; 2] ++ repeat 1 18)%Z).
  - split; [reflexivity | split].
    + simpl. repeat constructor; discriminate.
    + reflexivity.
  - vm_compute. discriminate.
Defined.

(* ------------------------------------------------------------------ *)
(** ** Night-time silence in UTC *)

Section NightSilence.

Lemma Qlikelihood_0 (p : list Qc) :
  length p = 24%nat -> Qlikelihood p 0 = Q2Qc (1 # 6) * Qsum (firstn 6 p).
Proof.
  intros H. list24 p. clear H. unfold Qlikelihood. eval_rolls.
  cbv [Qdot combine map fst snd Qsum fold_left template repeat app firstn].
  ring.
Qed.

Lemma Qsum_repeat_0 (n : nat) : Qsum (repeat 0 n) = 0.
Proof.
  induction n as [| n IH]; [reflexivity |].
  simpl. rewrite Qsum_cons, IH. ring.
Qed.

Lemma firstn_Qprob_zero (a : list Z) (n : nat) :
  firstn n a = repeat 0%Z n -> firstn n (Qprob a) = repeat 0 n.
Proof.
  intros H. unfold Qprob. rewrite firstn_map, H, map_repeat. f_equal.
  change (Q2Qc (inject_Z 0)) with 0. unfold Qcdiv. ring.
Qed.

Lemma nth_Qposterior_12 (p : list Qc) :
  nth 12 (Qposterior p) 0 = Qlikelihood p 0 / Qsum (Qlikelihoods p).
Proof. reflexivity. Qed.

End NightSilence.

(** C2 against the code: for every histogram with activity and with no
    activity at all in hours [0,6), the probability of offset 0 is 0 and the
    selected offset is never 0 (the claim says the posterior is maximal at
    offset 0 and the selector returns 0). *)
Theorem silent_night_never_selects_zero (a : list Z) :
  is_histogram a -> Zsum a <> 0%Z -> firstn 6 a = repeat 0%Z 6 ->
  exists post g,
    calculate_time_zone_probability (Int64 a) = Ok (time_zones, post)
    /\ nth 12 time_zones 99%Z = 0%Z
    /\ nth 12 post NaN = Fin 0
    /\ guessed_timezone time_zones post = Ok g
    /\ g <> 0%Z.
Proof.
  intros Ha Hs H6. destruct (calculate_histogram Ha Hs) as [E Hpos].
  destruct Ha as (Hl & Hnn & _).
  set (p := Qprob a) in *. set (post := Qposterior p).
  assert (Hlp : length p = 24%nat) by (unfold p; now rewrite length_Qprob).
  assert (H12 : nth 12 post 0 = 0).
  { unfold post. rewrite nth_Qposterior_12, Qlikelihood_0 by assumption.
    unfold p. rewrite (firstn_Qprob_zero a 6 H6), Qsum_repeat_0.
    unfold Qcdiv. ring. }
  assert (Hne : post <> []).
  { intros E0. apply (f_equal (@length Qc)) in E0.
    unfold post in E0. now rewrite length_Qposterior in E0. }
  destruct (argmax_fin Hne) as (j & Hj & Hlt & Hmax & _).
  assert (Hj25 : (j < 25)%nat) by (unfold post in Hlt; now rewrite length_Qposterior in Hlt).
  exists (map Fin post), (Z.of_nat j - 12)%Z. repeat split.
  - exact E.
  - rewrite (nth_indep _ NaN (Fin 0))
      by (unfold post; rewrite length_map, length_Qposterior; lia).
    now rewrite (map_nth Fin), H12.
  - unfold guessed_timezone. rewrite Hj. cbn [bind].
    now apply getitem_time_zones.
  - intros Hg. assert (j = 12%nat) by lia. subst j.
    assert (Hsum : Qsum post = 1).
    { apply Qsum_Qposterior. now apply Qclt_neq. }
    assert (Hle : Qsum post <= 0).
    { apply Qsum_nonpos. intros x Hx.
      destruct (In_nth _ _ 0 Hx) as (i & Hi & <-).
      pose proof (Hmax i Hi) as Hm. now rewrite H12 in Hm. }
    rewrite Hsum in Hle. now apply Hle.
Qed.

Lemma silent_night_never_selects_zero_witness :
  exists post g,
    calculate_time_zone_probability (Int64 (repeat 0 6 ++ repeat 1 18)%Z)
    = Ok (time_zones, post)
    /\ nth 12 time_zones 99%Z = 0%Z
    /\ nth 12 post NaN = Fin 0
    /\ guessed_timezone time_zones post = Ok g
    /\ g <> 0%Z.
Proof.
  apply (@silent_night_never_selects_zero (repeat 0 6 ++ repeat 1 18)%Z).
  - split; [reflexivity | split].
    + simpl. repeat constructor; discriminate.
    + reflexivity.
  - vm_compute. discriminate.
  - reflexivity.
Defined.

(** The histogram with one transaction in each of the hours 6 to 23 and none
    in the hours 0 to 5: the code answers UTC-12. *)
Example silent_night_selects_minus_12 :
  (tp <- calculate_time_zone_probability (Int64 (repeat 0 6 ++ repeat 1 18)%Z) ;;
   guessed_timezone (fst tp) (snd tp)) = Ok (-12)%Z.
Proof. vm_compute. reflexivity. Qed.

(* ------------------------------------------------------------------ *)
(** ** The likelihood against its description *)

Section Refinement.

Lemma roll_is_rotate (p : list float) (k : Z) :
  length p = 24%nat -> (-12 <= k <= 12)%Z -> roll p k = Described.rotate p k.
Proof.
  intros Hl Hk. list24 p. clear Hl.
  assert (H : In k time_zones).
  { rewrite time_zones_eq. simpl. lia. }
  rewrite time_zones_eq in H. simpl in H.
  repeat (destruct H as [<- | H]; [reflexivity |]). contradiction.
Qed.

Lemma template_is_described : nighttime_inactivity = Described.template.
Proof. rewrite nighttime_inactivity_eq. reflexivity. Qed.

Lemma sum_products_is_dot (a b : list float) :
  length a = 24%nat -> length b = 24%nat ->
  multiply a b = Ok (map (fun xy => mul (fst xy) (snd xy)) (combine a b))
  /\ sum (map (fun xy => mul (fst xy) (snd xy)) (combine a b))
     = Described.dot a b.
Proof.
  intros Ha Hb. split.
  - unfold multiply. now rewrite Ha, Hb.
  - list24 a. list24 b. reflexivity.
Qed.

End Refinement.

(** C4: for every candidate offset [k] in [-12, 12] and every vector [p] of
    length 24, the likelihood the loop computes for [k] is the dot product
    of the [k]-rotated copy of [p] (element [i] moved to index
    [(i + k) mod 24]) with the template that is 1/6 on 0..5 and 0 on
    6..23. *)
Theorem likelihood_is_described (p : list float) (k : Z) :
  length p = 24%nat -> (-12 <= k <= 12)%Z ->
  likelihood p k = Ok (Described.likelihood p k).
Proof.
  intros Hl Hk. unfold likelihood, Described.likelihood.
  assert (Hr : length (roll p k) = 24%nat) by now rewrite length_roll.
  assert (Ht : length nighttime_inactivity = 24%nat) by reflexivity.
  destruct (sum_products_is_dot _ _ Hr Ht) as [-> E]. cbn [bind].
  rewrite E, template_is_described, roll_is_rotate by assumption.
  reflexivity.
Qed.

Lemma likelihood_is_described_witness :
  likelihood (map of_int (repeat 0 6 ++ repeat 1 18)%Z) 5
  = Ok (Described.likelihood (map of_int (repeat 0 6 ++ repeat 1 18)%Z) 5).
Proof.
  apply (@likelihood_is_described
           (map of_int (repeat 0 6 ++ repeat 1 18)%Z) 5%Z).
  - reflexivity.
  - lia.
Defined.

(* ------------------------------------------------------------------ *)
(** ** Uniform histograms and the tie-break *)

Section Uniform.

Lemma Zsum_repeat (c : Z) (n : nat) : Zsum (repeat c n) = (Z.of_nat n * c)%Z.
Proof.
  induction n as [| n IH]; [reflexivity |].
  cbn [repeat]. rewrite Zsum_cons, IH. lia.
Qed.

Lemma Qprob_uniform (c : Z) :
  (0 < c)%Z -> Qprob (repeat c 24) = repeat (Q2Qc (1 # 24)) 24.
Proof.
  intros Hc. unfold Qprob. rewrite map_repeat. f_equal.
  rewrite Zsum_repeat, Qc_of_Z_mul.
  assert (Hn : Q2Qc (inject_Z c) <> 0) by (apply Qc_of_Z_neq0; lia).
  assert (H24 : Q2Qc (inject_Z (Z.of_nat 24)) * Q2Qc (1 # 24) = 1)
    by (apply Qc_is_canon; reflexivity).
  assert (H24n : Q2Qc (inject_Z (Z.of_nat 24)) <> 0) by discriminate.
  set (n := Q2Qc (inject_Z (Z.of_nat 24))) in *.
  set (t := Q2Qc (1 # 24)) in *.
  transitivity (Q2Qc (inject_Z c) / (n * Q2Qc (inject_Z c)) * (n * t)).
  - rewrite H24. ring.
  - field. split; assumption.
Qed.

Lemma likelihoods_uniform :
  likelihoods (map Fin (repeat (Q2Qc (1 # 24)) 24))
  = Ok (repeat (Fin (Q2Qc (1 # 24))) 25).
Proof.
  rewrite likelihoods_fin by reflexivity. apply f_equal.
  apply floats_eqb_eq. vm_compute. reflexivity.
Qed.

End Uniform.

(** C5: for every histogram with the same count [c] in all 24 bins, the 25
    candidate offsets receive the same likelihood ([1/24]; NaN when
    [c = 0]) and the selector returns -12, the first candidate in ascending
    order. *)
Theorem uniform_histogram_selects_minus_12 (c : Z) :
  is_histogram (repeat c 24) ->
  likelihoods (transaction_prob (Int64 (repeat c 24)))
  = Ok (repeat (if (0 <? c)%Z then Fin (Q2Qc (1 # 24)) else NaN) 25)
  /\ (tp <- calculate_time_zone_probability (Int64 (repeat c 24)) ;;
      guessed_timezone (fst tp) (snd tp)) = Ok (-12)%Z.
Proof.
  intros Ha. pose proof Ha as (_ & Hnn & _).
  assert (Hc : (0 <= c)%Z) by (apply Forall_inv in Hnn; exact Hnn).
  destruct (Z.eq_dec c 0) as [-> | Hc0].
  - split; vm_compute; reflexivity.
  - assert (Hs : Zsum (repeat c 24) <> 0%Z) by (rewrite Zsum_repeat; lia).
    assert (Hp : transaction_prob (Int64 (repeat c 24))
                 = map Fin (repeat (Q2Qc (1 # 24)) 24)).
    { rewrite transaction_prob_histogram by assumption.
      rewrite Qprob_uniform by lia. reflexivity. }
    assert (Hb : (0 <? c)%Z = true) by (apply Z.ltb_lt; lia).
    rewrite Hb. split.
    + rewrite Hp. apply likelihoods_uniform.
    + unfold calculate_time_zone_probability.
      rewrite Hp, likelihoods_uniform. vm_compute. reflexivity.
Qed.

Lemma uniform_histogram_selects_minus_12_witness :
  likelihoods (transaction_prob (Int64 (repeat 10%Z 24)))
  = Ok (repeat (Fin (Q2Qc (1 # 24))) 25)
  /\ (tp <- calculate_time_zone_probability (Int64 (repeat 10%Z 24)) ;;
      guessed_timezone (fst tp) (snd tp)) = Ok (-12)%Z.
Proof.
  apply (@uniform_histogram_selects_minus_12 10%Z).
  split; [reflexivity | split].
  - simpl. repeat constructor; discriminate.
  - reflexivity.
Defined.

(* ------------------------------------------------------------------ *)
(** ** Raw likelihoods that add up to zero *)

(** C6, as the code has it: when the 25 raw likelihoods add up to zero, no
    error is raised; the call returns a posterior in which no entry is
    finite (NaN where the likelihood is zero, an infinity elsewhere). *)
Theorem zero_likelihood_sum_gives_non_finite (tf : ndarray) (ls : list float) :
  likelihoods (transaction_prob tf) = Ok ls ->
  sum ls = Fin 0 ->
  exists post,
    calculate_time_zone_probability tf = Ok (time_zones, post)
    /\ length post = length ls
    /\ Forall not_finite post.
Proof.
  intros Hls Hs. exists (div_scalar ls (Fin 0)). split; [| split].
  - unfold calculate_time_zone_probability. rewrite Hls. cbn [bind].
    now rewrite Hs.
  - apply length_map.
  - apply Forall_map, Forall_forall. intros x _.
    apply div_by_zero_not_finite.
Qed.

Lemma zero_likelihood_sum_gives_non_finite_witness :
  exists post,
    calculate_time_zone_probability cancelling = Ok (time_zones, post)
    /\ length post = 25%nat
    /\ Forall not_finite post.
Proof.
  destruct (likelihoods (transaction_prob cancelling)) as [ls |] eqn:E;
    [| vm_compute in E; discriminate].
  assert (El : length ls = 25%nat).
  { vm_compute in E. injection E as <-. reflexivity. }
  rewrite <- El.
  apply (@zero_likelihood_sum_gives_non_finite cancelling ls E).
  vm_compute in E. injection E as <-.
  apply float_eqb_eq. vm_compute. reflexivity.
Defined.

(** C6 fails as stated: on [cancelling] the raw likelihoods add up to zero
    and the call does not fail; it returns -inf for offset -12, NaN for
    -11..-1, +inf for 0..6, NaN for 7..9 and -inf for 10..12. *)
Lemma zero_likelihood_sum_does_not_raise :
  (exists ls, likelihoods (transaction_prob cancelling) = Ok ls
              /\ sum ls = Fin 0)
  /\ calculate_time_zone_probability cancelling
     = Ok (time_zones,
           [NInf] ++ repeat NaN 11 ++ repeat PInf 7 ++ repeat NaN 3
           ++ repeat NInf 3)
  /\ ~ raises (calculate_time_zone_probability cancelling).
Proof.
  split; [| split].
  - destruct (likelihoods (transaction_prob cancelling)) as [ls |] eqn:E;
      [| vm_compute in E; discriminate].
    exists ls. split; [reflexivity |].
    vm_compute in E. injection E as <-.
    apply float_eqb_eq. vm_compute. reflexivity.
  - vm_compute. reflexivity.
  - intros [e H]. vm_compute in H. discriminate.
Qed.

(* ------------------------------------------------------------------ *)
(** ** Scaling a histogram *)

Section Scaling.

Lemma Zsum_map_mul (c : Z) (a : list Z) :
  Zsum (map (Z.mul c) a) = (c * Zsum a)%Z.
Proof.
  induction a as [| x a IH]; simpl; [unfold Zsum; simpl; lia |].
  rewrite !Zsum_cons, IH. lia.
Qed.

Lemma Qsum_map_scale (c : Qc) (a : list Z) :
  Qsum (map (fun x => c * Q2Qc (inject_Z x)) a) = c * Q2Qc (inject_Z (Zsum a)).
Proof.
  induction a as [| x a IH]; simpl.
  - unfold Qsum, Zsum. simpl. change (Q2Qc (inject_Z 0)) with 0. ring.
  - rewrite Qsum_cons, Zsum_cons, IH, Qc_of_Z_add. ring.
Qed.

Lemma Qprob_scale_int (c : Z) (a : list Z) :
  c <> 0%Z -> Zsum a <> 0%Z -> Qprob (map (Z.mul c) a) = Qprob a.
Proof.
  intros Hc Hs. unfold Qprob. rewrite map_map, Zsum_map_mul.
  apply map_ext. intros x. rewrite !Qc_of_Z_mul.
  field. split; now apply Qc_of_Z_neq0.
Qed.

Lemma transaction_prob_scale_float (c : Qc) (a : list Z) :
  c <> 0 -> Zsum a <> 0%Z ->
  transaction_prob (scale_float c a) = map Fin (Qprob a).
Proof.
  intros Hc Hs. unfold transaction_prob, scale_float, to_float64, total.
  assert (E : map (fun x => mul (Fin c) (of_int x)) a
              = map Fin (map (fun x => c * Q2Qc (inject_Z x)) a))
    by now rewrite map_map.
  rewrite E, sum_fin, Qsum_map_scale.
  assert (Hn : Q2Qc (inject_Z (Zsum a)) <> 0) by now apply Qc_of_Z_neq0.
  rewrite div_scalar_fin.
  - f_equal. unfold Qprob. rewrite map_map. apply map_ext. intros x.
    now field.
  - intros H0. apply Qcmult_integral in H0. tauto.
Qed.

Lemma calculate_depends_on_prob (tf tf' : ndarray) :
  transaction_prob tf = transaction_prob tf' ->
  calculate_time_zone_probability tf = calculate_time_zone_probability tf'.
Proof.
  intros H. unfold calculate_time_zone_probability. now rewrite H.
Qed.

End Scaling.

(** C7: for every histogram with a non-zero total, multiplying every bucket
    count by a positive constant leaves the result unchanged, whether the
    constant is an integer [ci] (the scaled histogram being again one of
    [int64] counts) or any positive rational [cq] (the scaled histogram
    being an array of floats). *)
Theorem scaling_leaves_posterior_unchanged (a : list Z) (ci : Z) (cq : Qc) :
  is_histogram a -> sum_int a <> 0%Z ->
  (0 < ci)%Z -> is_histogram (map (Z.mul ci) a) ->
  0 < cq ->
  calculate_time_zone_probability (scale_int ci a)
  = calculate_time_zone_probability (Int64 a)
  /\ calculate_time_zone_probability (scale_float cq a)
     = calculate_time_zone_probability (Int64 a).
Proof.
  intros Ha Hs Hci Hca Hcq. rewrite (sum_int_histogram Ha) in Hs. split.
  - apply calculate_depends_on_prob. unfold scale_int.
    rewrite !transaction_prob_histogram; try assumption.
    + rewrite Qprob_scale_int; [reflexivity | lia | assumption].
    + rewrite Zsum_map_mul. lia.
  - apply calculate_depends_on_prob.
    rewrite transaction_prob_scale_float, transaction_prob_histogram;
      try assumption; try reflexivity.
    now apply Qclt_neq.
Qed.

Lemma scaling_leaves_posterior_unchanged_witness :
  calculate_time_zone_probability
    (scale_int 2 ([3; 0; 1; 0; 0; 2] ++ repeat 1 18)%Z)
  = calculate_time_zone_probability
      (Int64 ([3; 0; 1; 0; 0; 2] ++ repeat 1 18)%Z)
  /\ calculate_time_zone_probability
       (scale_float (Q2Qc (1 # 2)) ([3; 0; 1; 0; 0; 2] ++ repeat 1 18)%Z)
     = calculate_time_zone_probability
         (Int64 ([3; 0; 1; 0; 0; 2] ++ repeat 1 18)%Z).
Proof.
  apply (@scaling_leaves_posterior_unchanged
           ([3; 0; 1; 0; 0; 2] ++ repeat 1 18)%Z 2%Z (Q2Qc (1 # 2))).
  - split; [reflexivity | split].
    + simpl. repeat constructor; discriminate.
    + reflexivity.
  - vm_compute. discriminate.
  - reflexivity.
  - split; [reflexivity | split].
    + simpl. repeat constructor; discriminate.
    + reflexivity.
  - reflexivity.
Defined.

(* ------------------------------------------------------------------ *)
(** ** Candidates, alignment and the range of the selection *)

Section Selection.

Lemma mapM_Forall2 {A B} (f : A -> result B) (l : list A) (ys : list B) :
  mapM f l = Ok ys -> Forall2 (fun x y => f x = Ok y) l ys.
Proof.
  revert ys. induction l as [| x l IH]; intros ys; simpl.
  - intros H. injection H as <-. constructor.
  - destruct (f x) as [y |] eqn:E; simpl; [| discriminate].
    destruct (mapM f l) as [ys' |]; simpl; [| discriminate].
    intros H. injection H as <-. constructor; auto.
Qed.

Lemma argmax_from_bound (a : list float) (i : nat) (mp : float) (mi : nat) :
  (mi < i)%nat -> (argmax_from a i mp mi < i + length a)%nat.
Proof.
  revert i mp mi. induction a as [| x a IH]; intros i mp mi H; simpl.
  - lia.
  - destruct (le x mp).
    + specialize (IH (S i) mp mi). lia.
    + destruct (isnan x); [lia |].
      specialize (IH (S i) x i). lia.
Qed.

(** [np.argmax] of a non-empty array is a valid index. *)
Lemma argmax_bound (a : list float) :
  a <> [] -> exists j, argmax a = Ok j /\ (j < length a)%nat.
Proof.
  destruct a as [| x a]; [congruence | intros _]. simpl.
  destruct (isnan x).
  - exists 0%nat. split; [reflexivity | lia].
  - eexists. split; [reflexivity |].
    pose proof (@argmax_from_bound a 1 x 0). lia.
Qed.

Lemma calculate_inv (tf : ndarray) (tzs : list Z) (post : list float) :
  calculate_time_zone_probability tf = Ok (tzs, post) ->
  exists ls, likelihoods (transaction_prob tf) = Ok ls
             /\ tzs = time_zones /\ post = div_scalar ls (sum ls).
Proof.
  unfold calculate_time_zone_probability.
  destruct (likelihoods (transaction_prob tf)) as [ls |]; simpl;
    [| discriminate].
  intros H. injection H as <- <-. now exists ls.
Qed.

Lemma Forall2_div_scalar {A} (f : A -> result float) (xs : list A)
    (ls : list float) (s : float) :
  Forall2 (fun x y => f x = Ok y) xs ls ->
  Forall2 (fun x pr => exists l, f x = Ok l /\ pr = div l s)
          xs (div_scalar ls s).
Proof.
  unfold div_scalar.
  induction 1 as [| x l xs ls Hl _ IH]; simpl; constructor; eauto.
Qed.

End Selection.

(** C9: whenever the engine returns, the candidate offsets are exactly
    -12, -11, ..., 12 in ascending order, the posterior has 25 entries, the
    entry at each position is the likelihood of the candidate at that
    position divided by one common value, and the selector returns an
    integer in [-12, 12]. *)
Theorem candidates_posterior_and_selection (tf : ndarray) (tzs : list Z)
    (post : list float) :
  calculate_time_zone_probability tf = Ok (tzs, post) ->
  tzs = [-12; -11; -10; -9; -8; -7; -6; -5; -4; -3; -2; -1; 0;
         1; 2; 3; 4; 5; 6; 7; 8; 9; 10; 11; 12]%Z
  /\ length post = 25%nat
  /\ (exists s,
        Forall2 (fun tz pr => exists l,
                   likelihood (transaction_prob tf) tz = Ok l /\ pr = div l s)
                tzs post)
  /\ (exists g, guessed_timezone tzs post = Ok g /\ (-12 <= g <= 12)%Z).
Proof.
  intros H. apply calculate_inv in H as (ls & Hls & -> & ->).
  apply mapM_Forall2 in Hls.
  assert (Hlen : length ls = 25%nat).
  { apply Forall2_length in Hls. now rewrite <- Hls. }
  split; [reflexivity | split; [| split]].
  - unfold div_scalar. now rewrite length_map.
  - exists (sum ls). now apply Forall2_div_scalar.
  - assert (Hne : div_scalar ls (sum ls) <> []).
    { intros E. apply (f_equal (@length float)) in E.
      unfold div_scalar in E. rewrite length_map, Hlen in E. discriminate. }
    destruct (argmax_bound Hne) as (j & Hj & Hlt).
    unfold div_scalar in Hlt. rewrite length_map, Hlen in Hlt.
    exists (Z.of_nat j - 12)%Z. split; [| lia].
    unfold guessed_timezone. rewrite Hj. cbn [bind].
    now apply getitem_time_zones.
Qed.

Lemma candidates_posterior_and_selection_witness :
  time_zones = [-12; -11; -10; -9; -8; -7; -6; -5; -4; -3; -2; -1; 0;
                1; 2; 3; 4; 5; 6; 7; 8; 9; 10; 11; 12]%Z
  /\ length (repeat NaN 25) = 25%nat
  /\ (exists s,
        Forall2 (fun tz pr => exists l,
                   likelihood (transaction_prob (Int64 (repeat 0%Z 24))) tz
                   = Ok l /\ pr = div l s)
                time_zones (repeat NaN 25))
  /\ (exists g, guessed_timezone time_zones (repeat NaN 25) = Ok g
                /\ (-12 <= g <= 12)%Z).
Proof.
  apply (@candidates_posterior_and_selection (Int64 (repeat 0%Z 24))).
  vm_compute. reflexivity.
Defined.

(* ------------------------------------------------------------------ *)
(** ** Reordering the timestamps *)

Section Reordering.

Lemma Permutation_filter {A} (f : A -> bool) (l l' : list A) :
  Permutation l l' -> Permutation (filter f l) (filter f l').
Proof.
  induction 1 as [| x l l' _ IH | x y l | l l' l'' _ IH1 _ IH2]; simpl.
  - constructor.
  - destruct (f x); [now constructor | exact IH].
  - destruct (f x), (f y); try apply Permutation_refl. apply perm_swap.
  - now apply Permutation_trans with (filter f l').
Qed.

Lemma bincount_Permutation (idx idx' : list nat) (n : nat) :
  Permutation idx idx' -> bincount idx n = bincount idx' n.
Proof.
  intros H. unfold bincount. apply map_ext. intros b. f_equal.
  now apply Permutation_count_occ.
Qed.

Lemma histogram_Permutation (a a' : list Qc) (bins : nat) (lo hi : Qc) :
  Permutation a a' -> histogram a bins lo hi = histogram a' bins lo hi.
Proof.
  intros H. unfold histogram. apply bincount_Permutation.
  now apply Permutation_map, Permutation_filter.
Qed.

End Reordering.

(** C8: the column of datetimes taken in any order gives the same
    candidates and posterior and the same selected offset (and so do two
    calls on the same column: the result is a function of the column). *)
Theorem reordering_timestamps_changes_nothing (d1 d2 : list datetime) :
  Permutation d1 d2 ->
  probabilities_of d1 = probabilities_of d2 /\ guess_of d1 = guess_of d2.
Proof.
  intros H.
  assert (E : probabilities_of d1 = probabilities_of d2).
  { unfold probabilities_of, transaction_freq. f_equal. f_equal.
    now apply histogram_Permutation, Permutation_map. }
  split; [exact E |]. unfold guess_of. now rewrite E.
Qed.

Lemma reordering_timestamps_changes_nothing_witness :
  probabilities_of [noon; dusk; noon] = probabilities_of [dusk; noon; noon]
  /\ guess_of [noon; dusk; noon] = guess_of [dusk; noon; noon].
Proof.
  apply (@reordering_timestamps_changes_nothing
           [noon; dusk; noon] [dusk; noon; noon]).
  apply perm_swap.
Defined.

(* ------------------------------------------------------------------ *)
(** ** The histogram of the hours *)

Section Hours.

Lemma utcfromtimestamp_valid (t : Z) (dt : datetime) :
  utcfromtimestamp t = Ok dt -> valid_datetime dt.
Proof.
  unfold utcfromtimestamp. destruct (_ && _)%bool; [| discriminate].
  intros H. injection H as <-. unfold valid_datetime. simpl.
  pose proof (Z.mod_pos_bound t 86400). pose proof (Z.mod_pos_bound t 3600).
  split; split.
  - apply Z.div_pos; lia.
  - apply Z.div_lt_upper_bound; lia.
  - apply Z.div_pos; lia.
  - apply Z.div_lt_upper_bound; lia.
Qed.

Lemma Qfloor_unique (x : Q) (z : Z) :
  (inject_Z z <= x)%Q -> (x < inject_Z (z + 1))%Q -> Qfloor x = z.
Proof.
  intros H1 H2.
  pose proof (Qfloor_le x) as H3. pose proof (Qlt_floor x) as H4.
  assert (A : (inject_Z (Qfloor x) < inject_Z (z + 1))%Q) by lra.
  assert (B : (inject_Z z < inject_Z (Qfloor x + 1))%Q) by lra.
  rewrite <- Zlt_Qlt in A, B. lia.
Qed.

Lemma this_fractional_hour (dt : datetime) :
  (this (fractional_hour dt)
   == inject_Z (hour dt) + inject_Z (minute dt) * (1 # 60))%Q.
Proof. unfold fractional_hour, Qcdiv. qc2q. reflexivity. Qed.

(** The fractional hour lies between the hour and the next one. *)
Lemma fractional_hour_bounds (dt : datetime) :
  valid_datetime dt ->
  (inject_Z (hour dt) <= this (fractional_hour dt))%Q
  /\ (this (fractional_hour dt) < inject_Z (hour dt + 1))%Q.
Proof.
  intros [Hh Hm]. rewrite this_fractional_hour, inject_Z_plus.
  assert (H0 : (0 <= inject_Z (minute dt))%Q) by (rewrite <- (Zle_Qle 0); lia).
  assert (H60 : (inject_Z (minute dt) < 60)%Q)
    by (rewrite <- (Zlt_Qlt _ 60); lia).
  change (inject_Z 1) with 1%Q.
  generalize dependent (inject_Z (minute dt)).
  generalize (inject_Z (hour dt)). intros h m H0 H60. split; lra.
Qed.

Lemma bin_index_hour (dt : datetime) :
  valid_datetime dt ->
  bin_index 24 (Q2Qc (inject_Z 0)) (Q2Qc (inject_Z 24)) (fractional_hour dt)
  = Z.to_nat (hour dt).
Proof.
  intros H. unfold bin_index.
  set (x := fractional_hour dt).
  assert (E : (x - Q2Qc (inject_Z 0)) * Q2Qc (inject_Z (Z.of_nat 24))
              / (Q2Qc (inject_Z 24) - Q2Qc (inject_Z 0)) = x).
  { change (Q2Qc (inject_Z 0)) with 0. change (Z.of_nat 24) with 24%Z.
    field. discriminate. }
  rewrite E. unfold x.
  destruct (fractional_hour_bounds H) as [H1 H2].
  rewrite (Qfloor_unique H1 H2).
  destruct H as [Hh _].
  destruct (Nat.eqb_spec (Z.to_nat (hour dt)) 24); [lia | reflexivity].
Qed.

Lemma in_range_hour (dt : datetime) :
  valid_datetime dt ->
  in_range (Q2Qc (inject_Z 0)) (Q2Qc (inject_Z 24)) (fractional_hour dt) = true.
Proof.
  intros H. destruct (fractional_hour_bounds H) as [H1 H2].
  destruct H as [Hh _]. unfold in_range.
  assert (A : Q2Qc (inject_Z 0) <= fractional_hour dt).
  { qc2q. assert (0 <= inject_Z (hour dt))%Q by (rewrite <- (Zle_Qle 0); lia).
    change (inject_Z 0) with 0%Q. lra. }
  assert (B : fractional_hour dt <= Q2Qc (inject_Z 24)).
  { qc2q.
    assert (inject_Z (hour dt + 1) <= inject_Z 24)%Q
      by (rewrite <- Zle_Qle; lia).
    lra. }
  apply -> Qcle_alt in A. apply -> Qcle_alt in B. revert A B.
  destruct (Q2Qc (inject_Z 0) ?= fractional_hour dt);
    destruct (fractional_hour dt ?= Q2Qc (inject_Z 24)); congruence.
Qed.

Lemma Zsum_indicator (x s n : nat) :
  Zsum (map (fun b => Z.of_nat (if Nat.eq_dec x b then 1 else 0)) (seq s n))
  = if ((s <=? x) && (x <? s + n))%nat then 1%Z else 0%Z.
Proof.
  revert s. induction n as [| n IH]; intros s.
  - destruct (Nat.leb_spec s x), (Nat.ltb_spec x (s + 0)); simpl;
      try reflexivity; lia.
  - cbn [seq map]. rewrite Zsum_cons, IH.
    destruct (Nat.eq_dec x s) as [-> | Hn].
    + replace (S s <=? s)%nat with false by (symmetry; apply Nat.leb_gt; lia).
      replace (s <=? s)%nat with true by (symmetry; apply Nat.leb_le; lia).
      replace (s <? s + S n)%nat with true by (symmetry; apply Nat.ltb_lt; lia).
      reflexivity.
    + destruct (Nat.leb_spec (S s) x), (Nat.leb_spec s x); try lia;
        destruct (Nat.ltb_spec x (S s + n)), (Nat.ltb_spec x (s + S n));
        try lia; reflexivity.
Qed.

Lemma Zsum_map_add {A} (f g : A -> Z) (l : list A) :
  Zsum (map (fun b => (f b + g b)%Z) l) = (Zsum (map f l) + Zsum (map g l))%Z.
Proof.
  induction l as [| x l IH]; simpl; [reflexivity |].
  rewrite !Zsum_cons, IH. lia.
Qed.

(** [np.bincount] loses nothing: the counts add up to the number of
    indices when every index is below [minlength]. *)
Lemma Zsum_bincount (idx : list nat) (n : nat) :
  Forall (fun i => (i < n)%nat) idx ->
  Zsum (bincount idx n) = Z.of_nat (length idx).
Proof.
  unfold bincount. induction 1 as [| x idx Hx _ IH].
  - simpl. induction (seq 0 n) as [| b l IHl]; [reflexivity |].
    simpl. now rewrite Zsum_cons, IHl.
  - transitivity
      (Zsum (map (fun b => (Z.of_nat (if Nat.eq_dec x b then 1 else 0)
                            + Z.of_nat (count_occ Nat.eq_dec idx b))%Z)
                 (seq 0 n))).
    + f_equal. apply map_ext. intros b. simpl.
      destruct (Nat.eq_dec x b); lia.
    + rewrite Zsum_map_add, IH, Zsum_indicator.
      replace ((0 <=? x) && (x <? 0 + n))%nat%bool with true.
      * simpl length. lia.
      * symmetry. apply andb_true_intro.
        split; [now apply Nat.leb_le; lia | apply Nat.ltb_lt; lia].
Qed.

Lemma filter_all {A} (f : A -> bool) (l : list A) :
  Forall (fun x => f x = true) l -> filter f l = l.
Proof.
  induction 1 as [| x l Hx _ IH]; simpl; [reflexivity |].
  now rewrite Hx, IH.
Qed.

(** Every valid datetime is counted once, in the bin of its hour. *)
Lemma Zsum_transaction_freq (dts : list datetime) :
  Forall valid_datetime dts ->
  Zsum (transaction_freq (map fractional_hour dts)) = Z.of_nat (length dts).
Proof.
  intros H. unfold transaction_freq, histogram.
  rewrite filter_all.
  - rewrite Zsum_bincount; [now rewrite !length_map |].
    rewrite map_map. apply Forall_map. revert H. apply Forall_impl.
    intros dt Hdt. rewrite bin_index_hour by assumption.
    destruct Hdt as [Hh _]. lia.
  - apply Forall_map. revert H. apply Forall_impl.
    intros dt Hdt. now apply in_range_hour.
Qed.

Lemma tx_data_valid (t : tx) (r : row) :
  tx_data t = Ok r -> valid_datetime (Time_UTC r).
Proof.
  unfold tx_data. destruct (utcfromtimestamp (time t)) as [dt |] eqn:E;
    simpl; [| discriminate].
  intros H. injection H as <-. simpl. now apply utcfromtimestamp_valid in E.
Qed.

Lemma save_transactions_rows (txs : list tx) (df : dataframe) :
  save_transactions_to_dataframe (Transactions txs) = Ok df ->
  length df = length txs /\ Forall valid_datetime (map Time_UTC df).
Proof.
  simpl. intros H. apply mapM_Forall2 in H.
  split; [symmetry; now apply Forall2_length in H |].
  apply Forall_map.
  induction H as [| t r txs df Hr _ IH]; constructor; auto.
  now apply tx_data_valid in Hr.
Qed.

End Hours.

(** C10: the counts of the 24-bin histogram add up to the number of
    transactions fetched: every timestamp has a fractional hour in [0, 24)
    and falls in one bin, none is dropped. *)
Theorem histogram_counts_every_timestamp (txs : list tx) (df : dataframe) :
  save_transactions_to_dataframe (Transactions txs) = Ok df ->
  Zsum (transaction_freq (map fractional_hour (map Time_UTC df)))
  = Z.of_nat (length txs).
Proof.
  intros H. apply save_transactions_rows in H as [Hl Hv].
  rewrite Zsum_transaction_freq by assumption.
  now rewrite length_map, Hl.
Qed.

Lemma histogram_counts_every_timestamp_witness :
  Zsum (transaction_freq (map fractional_hour (map Time_UTC sample_rows)))
  = Z.of_nat (length sample_txs).
Proof.
  apply (@histogram_counts_every_timestamp sample_txs sample_rows).
  vm_compute. reflexivity.
Defined.

(* ------------------------------------------------------------------ *)
(** ** [np.roll]: indices, composition, and what it does to the scores *)

Section Roll.

Lemma roll_index (n k i : Z) :
  (0 < n)%Z -> (0 <= i < n)%Z ->
  ((i - k) mod n
   = if (i <? k mod n)%Z then n - k mod n + i else i - k mod n)%Z.
Proof.
  intros Hn Hi. pose proof (Z.mod_pos_bound k n Hn) as Hs.
  pose proof (Z.div_mod k n) as Hd.
  destruct (Z.ltb_spec i (k mod n)); symmetry.
  - apply (Z.mod_unique_pos _ _ (- (k / n) - 1)); lia.
  - apply (Z.mod_unique_pos _ _ (- (k / n))); lia.
Qed.

(** The element at index [i] of [np.roll(a, k)] is the element of [a] at
    index [(i - k) mod n]. *)
Lemma nth_roll {A} (a : list A) (k : Z) (d : A) (i : nat) :
  (i < length a)%nat ->
  nth i (roll a k) d
  = nth (Z.to_nat ((Z.of_nat i - k) mod Z.of_nat (length a))) a d.
Proof.
  intros Hi. unfold roll.
  replace (Nat.max (length a) 1) with (length a) by lia.
  set (n := length a) in *.
  assert (Hn : (0 < Z.of_nat n)%Z) by lia.
  pose proof (Z.mod_pos_bound k _ Hn) as Hs.
  rewrite (@roll_index (Z.of_nat n) k (Z.of_nat i)) by lia.
  set (s := (k mod Z.of_nat n)%Z) in *.
  destruct (Z.ltb_spec (Z.of_nat i) s).
  - rewrite app_nth1 by (rewrite length_skipn; fold n; lia).
    rewrite nth_skipn. f_equal. lia.
  - rewrite app_nth2 by (rewrite length_skipn; fold n; lia).
    rewrite length_skipn. fold n. rewrite nth_firstn.
    replace (_ <? _)%nat with true by (symmetry; apply Nat.ltb_lt; lia).
    f_equal. lia.
Qed.

Lemma roll_roll {A} (a : list A) (j k : Z) :
  roll (roll a j) k = roll a (j + k).
Proof.
  destruct a as [| x a']; [reflexivity |].
  set (a := x :: a').
  assert (Hn : (0 < Z.of_nat (length a))%Z) by (unfold a; simpl; lia).
  apply (nth_ext _ _ x x).
  - now rewrite !length_roll.
  - intros i Hi. rewrite !length_roll in Hi.
    pose proof (Z.mod_pos_bound (Z.of_nat i - k) _ Hn) as Hb.
    rewrite (nth_roll (roll a j) k x) by now rewrite length_roll.
    rewrite length_roll, (nth_roll a j x) by lia.
    rewrite (nth_roll a (j + k) x) by assumption.
    rewrite Z2Nat.id by lia.
    rewrite Zminus_mod_idemp_l. do 3 f_equal. lia.
Qed.

Lemma Zsum_roll (a : list Z) (k : Z) : Zsum (roll a k) = Zsum a.
Proof.
  unfold roll. set (n := (length a - _)%nat).
  rewrite Zsum_app, Z.add_comm, <- Zsum_app. now rewrite firstn_skipn.
Qed.

Lemma transaction_prob_roll (a : list Z) (m : Z) :
  transaction_prob (Int64 (roll a m)) = roll (transaction_prob (Int64 a)) m.
Proof.
  unfold transaction_prob, total, to_float64, div_scalar, sum_int.
  fold (Zsum (roll a m)). fold (Zsum a).
  now rewrite Zsum_roll, !roll_map.
Qed.

End Roll.

(** X1. Moving all the activity [m] hours later ([np.roll(hist, m)]) moves the
    scores [m] offsets down: the likelihood of offset [k] after the move is
    the likelihood of offset [m + k] before it. *)
Theorem rolled_histogram_shifts_likelihoods (a : list Z) (m k : Z) :
  likelihood (transaction_prob (Int64 (roll a m))) k
  = likelihood (transaction_prob (Int64 a)) (m + k).
Proof.
  unfold likelihood. now rewrite transaction_prob_roll, roll_roll.
Qed.

(* ------------------------------------------------------------------ *)
(** ** [np.argmax] on arbitrary floats: offset 12 is never selected *)

Section Never12.

Lemma le_not_nan_l (e mp : float) : le e mp = true -> isnan e = false.
Proof. destruct e, mp; simpl; congruence. Qed.

Lemma le_refl_not_nan (x : float) : isnan x = false -> le x x = true.
Proof.
  destruct x as [q | | |]; simpl; try congruence.
  now rewrite Qccompare_refl.
Qed.

(** A value that beats the running maximum is above all that the running
    maximum is above. *)
Lemma le_new_max (e mp x : float) :
  le e mp = true -> le x mp = false -> isnan x = false -> le e x = true.
Proof.
  destruct e as [a | | |], mp as [m | | |], x as [q | | |]; simpl;
    try congruence.
  intros Ha Hq _.
  destruct (a ?= m) eqn:E1; try discriminate;
    destruct (q ?= m) eqn:E2; try discriminate;
    apply Qcgt_alt in E2.
  - apply Qceq_alt in E1. subst a. now rewrite (Qccompare_lt E2).
  - apply Qclt_alt in E1.
    now rewrite (Qccompare_lt (Qclt_trans _ _ _ E1 E2)).
Qed.

Lemma argmax_from_distinct (r pre : list float) (mp d : float) (mi : nat) :
  (mi < length pre)%nat ->
  Forall (fun e => le e mp = true) pre ->
  let j := argmax_from r (length pre) mp mi in
  j = mi
  \/ ((length pre <= j)%nat
      /\ forall i, (i < j)%nat -> nth i (pre ++ r) d <> nth j (pre ++ r) d).
Proof.
  revert pre mp mi. induction r as [| x r IH]; intros pre mp mi Hmi Hpre;
    cbn [argmax_from]; [now left |].
  assert (E : pre ++ x :: r = (pre ++ [x]) ++ r) by now rewrite <- app_assoc.
  assert (El : S (length pre) = length (pre ++ [x]))
    by (rewrite length_app; simpl; lia).
  destruct (le x mp) eqn:Hx.
  - rewrite E, El.
    destruct (IH (pre ++ [x]) mp mi) as [H | [H1 H2]].
    + lia.
    + apply Forall_app. split; [assumption | now repeat constructor].
    + now left.
    + right. split; [lia | exact H2].
  - destruct (isnan x) eqn:Hn.
    + right. split; [lia |]. intros i Hi.
      rewrite nth_middle, app_nth1 by assumption.
      destruct x; try discriminate. intros Hnan.
      assert (Hin : In (nth i pre d) pre) by now apply nth_In.
      rewrite Forall_forall in Hpre. apply Hpre in Hin.
      apply le_not_nan_l in Hin. rewrite Hnan in Hin. discriminate.
    + assert (Hlt : forall i, (i < length pre)%nat -> nth i pre d <> x).
      { intros i Hi Heq.
        assert (Hin : In (nth i pre d) pre) by now apply nth_In.
        rewrite Forall_forall in Hpre. apply Hpre in Hin.
        rewrite Heq in Hin. congruence. }
      rewrite E, El.
      destruct (IH (pre ++ [x]) x (length pre)) as [H | [H1 H2]].
      * lia.
      * apply Forall_app. split.
        -- revert Hpre. apply Forall_impl. intros e He.
           now apply le_new_max with mp.
        -- repeat constructor. now apply le_refl_not_nan.
      * right. rewrite H. split; [lia |]. intros i Hi.
        rewrite <- E, nth_middle, app_nth1 by assumption. now apply Hlt.
      * right. split; [lia | exact H2].
Qed.

(** [np.argmax] never returns a position whose value already occurs
    earlier in the array. *)
Lemma argmax_distinct (a : list float) (d : float) (j : nat) :
  argmax a = Ok j -> forall i, (i < j)%nat -> nth i a d <> nth j a d.
Proof.
  destruct a as [| x r]; [discriminate |]. cbn [argmax].
  destruct (isnan x) eqn:Hn.
  - intros H. injection H as <-. intros i Hi. lia.
  - intros H. injection H as <-.
    destruct (@argmax_from_distinct r [x] x d 0) as [H | [_ H]].
    + simpl. lia.
    + repeat constructor. now apply le_refl_not_nan.
    + simpl in H. rewrite H. intros i Hi. lia.
    + exact H.
Qed.

Lemma multiply_shape (a : list float) :
  length a <> 24%nat -> length a <> 1%nat ->
  multiply a nighttime_inactivity = Raise ValueError.
Proof.
  intros H24 H1. unfold multiply.
  replace (length nighttime_inactivity) with 24%nat by reflexivity.
  destruct (Nat.eqb_spec (length a) 24); [contradiction |].
  rewrite nighttime_inactivity_eq.
  destruct a as [| x [| y a]]; simpl in *; try reflexivity. lia.
Qed.

Lemma roll_singleton {A} (x : A) (k : Z) : roll [x] k = [x].
Proof. unfold roll. simpl. now rewrite Z.mod_1_r. Qed.

(** Offsets -12 and 12 are the same rotation of a day: they always get the
    same likelihood. *)
Lemma likelihood_minus_12_plus_12 (p : list float) :
  likelihood p (-12) = likelihood p 12.
Proof.
  unfold likelihood.
  destruct (Nat.eq_dec (length p) 24) as [H24 | H24].
  - assert (E : roll p (-12) = roll p 12)
      by (unfold roll; now rewrite H24).
    now rewrite E.
  - destruct (Nat.eq_dec (length p) 1) as [H1 | H1].
    + destruct p as [| x [| y p]]; try discriminate.
      now rewrite !roll_singleton.
    + now rewrite !multiply_shape by (now rewrite length_roll).
Qed.

Lemma guessed_timezone_not_12 (tf : ndarray) (tzs : list Z)
    (post : list float) (g : Z) :
  calculate_time_zone_probability tf = Ok (tzs, post) ->
  guessed_timezone tzs post = Ok g -> g <> 12%Z.
Proof.
  intros H Hg. apply calculate_inv in H as (ls & Hls & -> & ->).
  unfold likelihoods in Hls. rewrite time_zones_eq in Hls.
  cbn [mapM] in Hls. rewrite likelihood_minus_12_plus_12 in Hls.
  repeat match type of Hls with
    | context [likelihood ?p ?k] =>
        destruct (likelihood p k); cbn [bind] in Hls; [| discriminate]
    end.
  injection Hls as <-.
  unfold guessed_timezone in Hg.
  destruct (argmax _) as [j |] eqn:Hj; cbn [bind] in Hg; [| discriminate].
  intros ->.
  pose proof (@argmax_distinct _ NaN _ Hj) as Hd.
  destruct (Nat.lt_ge_cases j 25) as [Hlt | Hge].
  - rewrite getitem_time_zones in Hg by assumption.
    injection Hg as Hg. assert (j = 24%nat) by lia. subst j.
    apply (Hd 0%nat); [lia | reflexivity].
  - unfold getitem in Hg.
    assert (En : nth_error time_zones j = None) by now apply nth_error_None.
    rewrite En in Hg. discriminate.
Qed.

End Never12.

(** X2. The selector never answers UTC+12: offsets -12 and 12 rotate the day by
    the same half turn and score the same, and [np.argmax] keeps the first
    of equal values. *)
Theorem selector_never_returns_plus_12 (tf : ndarray) (tzs : list Z)
    (post : list float) (g : Z) :
  calculate_time_zone_probability tf = Ok (tzs, post) ->
  guessed_timezone tzs post = Ok g ->
  (-12 <= g <= 11)%Z.
Proof.
  intros H Hg. pose proof (guessed_timezone_not_12 _ H Hg) as Hn.
  apply calculate_inv in H as (ls & _ & -> & _).
  unfold guessed_timezone in Hg.
  destruct (argmax post) as [j |]; cbn [bind] in Hg; [| discriminate].
  apply getitem_time_zones_range in Hg. lia.
Qed.

Lemma selector_never_returns_plus_12_witness : (-12 <= -12 <= 11)%Z.
Proof.
  apply (@selector_never_returns_plus_12
           (Int64 (repeat 0%Z 24)) time_zones (repeat NaN 25) (-12)%Z);
    vm_compute; reflexivity.
Defined.

(* ------------------------------------------------------------------ *)
(** ** More on the engine *)

(** X3. On a posterior of 25 finite values the selector returns the candidate
    at the first position where the posterior is maximal: the smallest
    offset among those of maximal probability. *)
Theorem selector_returns_first_maximum (qs : list Qc) :
  length qs = 25%nat ->
  exists j,
    guessed_timezone time_zones (map Fin qs) = Ok (Z.of_nat j - 12)%Z
    /\ first_max qs j.
Proof.
  intros Hl.
  assert (Hne : qs <> []) by (intros ->; discriminate).
  destruct (argmax_fin Hne) as (j & Hj & Hmax).
  exists j. split; [| exact Hmax].
  unfold guessed_timezone. rewrite Hj. cbn [bind].
  apply getitem_time_zones. destruct Hmax as [Hlt _]. lia.
Qed.

Lemma selector_returns_first_maximum_witness :
  exists j,
    guessed_timezone time_zones
      (map Fin (repeat 0 7 ++ [1; 0; 1] ++ repeat 0 15))
    = Ok (Z.of_nat j - 12)%Z
    /\ first_max (repeat 0 7 ++ [1; 0; 1] ++ repeat 0 15) j.
Proof.
  apply (@selector_returns_first_maximum
           (repeat 0 7 ++ [1; 0; 1] ++ repeat 0 15)).
  reflexivity.
Defined.

(** X4. For a histogram with activity the 25 raw likelihoods are finite and add
    up to [1 + (p12 + ... + p17) / 6], where [p] is the normalized
    histogram: at least 1, never zero. *)
Theorem likelihoods_sum_at_least_one (a : list Z) :
  is_histogram a -> sum_int a <> 0%Z ->
  likelihoods (transaction_prob (Int64 a))
  = Ok (map Fin (Qlikelihoods (Qprob a)))
  /\ Qsum (Qlikelihoods (Qprob a))
     = 1 + Q2Qc (1 # 6) * Qsum (firstn 6 (skipn 12 (Qprob a)))
  /\ 1 <= Qsum (Qlikelihoods (Qprob a)).
Proof.
  intros Ha Hs. rewrite (sum_int_histogram Ha) in Hs.
  pose proof Ha as (Hl & Hnn & _).
  assert (Hlp : length (Qprob a) = 24%nat) by now rewrite length_Qprob.
  assert (E : Qsum (Qlikelihoods (Qprob a))
              = 1 + Q2Qc (1 # 6) * Qsum (firstn 6 (skipn 12 (Qprob a))))
    by now rewrite Qsum_Qlikelihoods, Qsum_Qprob.
  split; [| split].
  - rewrite transaction_prob_histogram by assumption.
    now apply likelihoods_fin.
  - exact E.
  - rewrite E.
    assert (H : 0 <= Qsum (firstn 6 (skipn 12 (Qprob a)))).
    { apply Qsum_nonneg, Forall_firstn, Forall_skipn.
      now apply Qprob_nonneg. }
    pose proof sixth_pos as Ht. set (t := Q2Qc (1 # 6)) in *.
    qc2q. nra.
Qed.

Lemma likelihoods_sum_at_least_one_witness :
  likelihoods (transaction_prob (Int64 (repeat 0 6 ++ repeat 1 18)%Z))
  = Ok (map Fin (Qlikelihoods (Qprob (repeat 0 6 ++ repeat 1 18)%Z)))
  /\ Qsum (Qlikelihoods (Qprob (repeat 0 6 ++ repeat 1 18)%Z))
     = 1 + Q2Qc (1 # 6)
           * Qsum (firstn 6 (skipn 12 (Qprob (repeat 0 6 ++ repeat 1 18)%Z)))
  /\ 1 <= Qsum (Qlikelihoods (Qprob (repeat 0 6 ++ repeat 1 18)%Z)).
Proof.
  apply (@likelihoods_sum_at_least_one (repeat 0 6 ++ repeat 1 18)%Z).
  - split; [reflexivity | split].
    + simpl. repeat constructor; discriminate.
    + reflexivity.
  - vm_compute. discriminate.
Defined.

Section Window.

(** The likelihood of offset [k] is one sixth of what the rotated vector
    has in its first six hours. *)
Lemma Qdot_template (r : list Qc) :
  length r = 24%nat -> Qdot r template = Q2Qc (1 # 6) * Qsum (firstn 6 r).
Proof.
  intros H. list24 r. clear H.
  cbv [Qdot combine map fst snd Qsum fold_left template repeat app firstn].
  ring.
Qed.

Lemma Qsum_roll (p : list Qc) (k : Z) : Qsum (roll p k) = Qsum p.
Proof.
  unfold roll. set (n := (length p - _)%nat).
  rewrite Qsum_app, Qcplus_comm, <- Qsum_app. now rewrite firstn_skipn.
Qed.

Lemma Qsum_firstn_le (n : nat) (r : list Qc) :
  Forall (fun q => 0 <= q) r -> Qsum (firstn n r) <= Qsum r.
Proof.
  intros H. rewrite <- (firstn_skipn n r) at 2. rewrite Qsum_app.
  assert (H0 : 0 <= Qsum (skipn n r)) by now apply Qsum_nonneg, Forall_skipn.
  qc2q. lra.
Qed.

Lemma Qlikelihood_le_sixth (p : list Qc) (k : Z) :
  length p = 24%nat -> Forall (fun q => 0 <= q) p -> Qsum p = 1 ->
  Qlikelihood p k <= Q2Qc (1 # 6).
Proof.
  intros Hl Hp H1. unfold Qlikelihood.
  rewrite Qdot_template by now rewrite length_roll.
  assert (H : Qsum (firstn 6 (roll p k)) <= 1).
  { rewrite <- H1, <- (Qsum_roll p k).
    now apply Qsum_firstn_le, Forall_roll. }
  pose proof sixth_pos as Ht. set (t := Q2Qc (1 # 6)) in *.
  qc2q. nra.
Qed.

Lemma Qcdiv_le_of_ge_1 (l t s : Qc) :
  0 <= l -> l <= t -> 1 <= s -> l / s <= t.
Proof.
  intros Hl Ht Hs.
  assert (Hpos : 0 < s) by (qc2q; lra).
  apply Qcmult_lt_0_le_reg_r with s; [assumption |].
  replace (l / s * s) with l by (field; now apply Qclt_neq).
  qc2q. nra.
Qed.

End Window.

(** X5. No offset is ever given a probability above 1/6: for a histogram with
    activity, every entry of the posterior lies between 0 and 1/6. *)
Theorem posterior_at_most_one_sixth (a : list Z) :
  is_histogram a -> sum_int a <> 0%Z ->
  exists qs,
    calculate_time_zone_probability (Int64 a) = Ok (time_zones, map Fin qs)
    /\ Forall (fun q => 0 <= q /\ q <= Q2Qc (1 # 6)) qs.
Proof.
  intros Ha Hs. rewrite (sum_int_histogram Ha) in Hs.
  destruct (calculate_histogram Ha Hs) as [E Hpos].
  pose proof Ha as (Hl & Hnn & _).
  exists (Qposterior (Qprob a)). split; [exact E |].
  assert (Hlp : length (Qprob a) = 24%nat) by now rewrite length_Qprob.
  pose proof (Qprob_nonneg Hnn Hs) as Hp.
  pose proof (Qsum_Qprob a Hs) as H1.
  assert (Hge : 1 <= Qsum (Qlikelihoods (Qprob a))).
  { rewrite Qsum_Qlikelihoods, H1 by assumption.
    assert (H : 0 <= Qsum (firstn 6 (skipn 12 (Qprob a))))
      by now apply Qsum_nonneg, Forall_firstn, Forall_skipn.
    pose proof sixth_pos as Ht. set (t := Q2Qc (1 # 6)) in *.
    qc2q. nra. }
  unfold Qposterior, Qlikelihoods. rewrite map_map.
  apply Forall_map, Forall_forall. intros k _. split.
  - apply Qcdiv_nonneg; [now apply Qlikelihood_nonneg | assumption].
  - apply Qcdiv_le_of_ge_1;
      [now apply Qlikelihood_nonneg | now apply Qlikelihood_le_sixth
      | assumption].
Qed.

Lemma posterior_at_most_one_sixth_witness :
  exists qs,
    calculate_time_zone_probability (Int64 (repeat 0 6 ++ repeat 1 18)%Z)
    = Ok (time_zones, map Fin qs)
    /\ Forall (fun q => 0 <= q /\ q <= Q2Qc (1 # 6)) qs.
Proof.
  apply (@posterior_at_most_one_sixth (repeat 0 6 ++ repeat 1 18)%Z).
  - split; [reflexivity | split].
    + simpl. repeat constructor; discriminate.
    + reflexivity.
  - vm_compute. discriminate.
Defined.

(** X6. A histogram of total zero is answered like any other: the selector
    returns UTC-12, the position of the first NaN. *)
Theorem zero_total_is_answered_minus_12 (tf : ndarray) :
  length (to_float64 tf) = 24%nat ->
  total tf = Fin 0 ->
  (tp <- calculate_time_zone_probability tf ;;
   guessed_timezone (fst tp) (snd tp)) = Ok (-12)%Z.
Proof.
  intros Hl Ht. unfold calculate_time_zone_probability.
  rewrite likelihoods_not_finite.
  - reflexivity.
  - now rewrite length_transaction_prob.
  - now apply transaction_prob_zero_total.
Qed.

Lemma zero_total_is_answered_minus_12_witness :
  (tp <- calculate_time_zone_probability
           (Float64 (map Fin ([1; Qcopp 1] ++ repeat 0 22))) ;;
   guessed_timezone (fst tp) (snd tp)) = Ok (-12)%Z.
Proof.
  apply (@zero_total_is_answered_minus_12
           (Float64 (map Fin ([1; Qcopp 1] ++ repeat 0 22)))).
  - reflexivity.
  - apply float_eqb_eq. vm_compute. reflexivity.
Defined.

(* ------------------------------------------------------------------ *)
(** ** The pipeline of [guess_time_zones] *)

Section Pipeline.

Lemma length_transaction_freq (hours : list Qc) :
  length (transaction_freq hours) = 24%nat.
Proof.
  unfold transaction_freq, histogram, bincount.
  now rewrite length_map, length_seq.
Qed.

Lemma transaction_freq_nonneg (hours : list Qc) :
  Forall (fun c => (0 <= c)%Z) (transaction_freq hours).
Proof.
  unfold transaction_freq, histogram, bincount.
  apply Forall_map, Forall_forall. intros b _. lia.
Qed.

Lemma nth_bincount (idx : list nat) (n b : nat) :
  (b < n)%nat ->
  nth b (bincount idx n) 0%Z = Z.of_nat (count_occ Nat.eq_dec idx b).
Proof.
  intros H. unfold bincount.
  rewrite (nth_indep _ 0%Z (Z.of_nat (count_occ Nat.eq_dec idx 0%nat)))
    by now rewrite length_map, length_seq.
  rewrite (map_nth (fun b => Z.of_nat (count_occ Nat.eq_dec idx b))).
  now rewrite seq_nth.
Qed.

Lemma utcfromtimestamp_in_range (t : Z) :
  (datetime_min <= t <= datetime_max)%Z ->
  exists dt, utcfromtimestamp t = Ok dt.
Proof.
  intros [H1 H2]. unfold utcfromtimestamp.
  apply Z.leb_le in H1, H2. rewrite H1, H2. simpl. eauto.
Qed.

Lemma utcfromtimestamp_out_of_range (t : Z) :
  ~ (datetime_min <= t <= datetime_max)%Z ->
  utcfromtimestamp t = Raise RangeError.
Proof.
  intros H. unfold utcfromtimestamp.
  destruct (Z.leb_spec datetime_min t), (Z.leb_spec t datetime_max);
    simpl; try reflexivity. lia.
Qed.

Lemma tx_data_in_range (t : tx) :
  in_datetime_range t -> exists r, tx_data t = Ok r.
Proof.
  intros H. unfold tx_data.
  destruct (utcfromtimestamp_in_range H) as [dt ->]. simpl. eauto.
Qed.

Lemma tx_data_raises (t : tx) (e : exn) :
  tx_data t = Raise e -> e = RangeError /\ ~ in_datetime_range t.
Proof.
  unfold tx_data, in_datetime_range, utcfromtimestamp.
  destruct (Z.leb_spec datetime_min (time t)),
           (Z.leb_spec (time t) datetime_max); simpl; try discriminate;
    intros He; injection He as <-; split; try reflexivity; lia.
Qed.

Lemma mapM_all_ok {A B} (f : A -> result B) (l : list A) :
  Forall (fun x => exists y, f x = Ok y) l ->
  exists ys, mapM f l = Ok ys /\ length ys = length l.
Proof.
  induction 1 as [| x l [y Hy] _ (ys & Hys & Hl)]; simpl.
  - now exists [].
  - rewrite Hy, Hys. simpl. exists (y :: ys). simpl. now rewrite Hl.
Qed.

Lemma mapM_raises {A B} (f : A -> result B) (l : list A) (e : exn) :
  mapM f l = Raise e -> exists x, In x l /\ f x = Raise e.
Proof.
  induction l as [| x l IH]; simpl; [discriminate |].
  destruct (f x) as [y |] eqn:E; simpl.
  - destruct (mapM f l) as [ys |]; simpl; [discriminate |].
    intros H. injection H as <-.
    destruct IH as (z & Hz & Hf); [reflexivity |]. exists z. auto.
  - intros H. injection H as <-. exists x. auto.
Qed.

Lemma length_slice_to {A} (limit : Z) (l : list A) :
  (0 <= limit)%Z -> slice_to limit l = firstn (Z.to_nat limit) l.
Proof.
  intros H. unfold slice_to. apply Z.leb_le in H. now rewrite H.
Qed.

(** What the engine makes of a non-empty column of valid datetimes. *)
Lemma guess_of_valid (dts : list datetime) :
  dts <> [] -> Forall valid_datetime dts -> (length dts <= 100)%nat ->
  exists g, guess_of dts = Ok g /\ (-12 <= g <= 11)%Z.
Proof.
  intros Hne Hv Hlen.
  pose proof (Zsum_transaction_freq Hv) as Hs.
  set (a := transaction_freq (map fractional_hour dts)) in *.
  assert (Ha : is_histogram a).
  { split; [apply length_transaction_freq |].
    split; [apply transaction_freq_nonneg |]. rewrite Hs.
    apply Z.le_lt_trans with 100%Z; [lia | reflexivity]. }
  assert (Hs0 : Zsum a <> 0%Z).
  { rewrite Hs. destruct dts; [congruence | simpl; lia]. }
  destruct (calculate_histogram Ha Hs0) as [E _].
  assert (Hne' : map Fin (Qposterior (Qprob a)) <> []).
  { intros E0. apply (f_equal (@length float)) in E0.
    now rewrite length_map, length_Qposterior in E0. }
  destruct (argmax_bound Hne') as (j & Hj & Hlt).
  rewrite length_map, length_Qposterior in Hlt.
  assert (Hg : guessed_timezone time_zones (map Fin (Qposterior (Qprob a)))
               = Ok (Z.of_nat j - 12)%Z).
  { unfold guessed_timezone. rewrite Hj. cbn [bind].
    now apply getitem_time_zones. }
  exists (Z.of_nat j - 12)%Z. split.
  - unfold guess_of, probabilities_of. fold a. rewrite E. exact Hg.
  - pose proof (guessed_timezone_not_12 _ E Hg). lia.
Qed.

End Pipeline.

(** X7. The histogram builder: bin [h] counts the timestamps whose UTC hour is
    [h] (minutes and seconds do not matter), for every [h] from 0 to 23. *)
Theorem histogram_bin_counts_the_hour (dts : list datetime) (h : nat) :
  Forall valid_datetime dts -> (h < 24)%nat ->
  nth h (transaction_freq (map fractional_hour dts)) 0%Z
  = Z.of_nat (count_occ Nat.eq_dec
                (map (fun dt => Z.to_nat (hour dt)) dts) h).
Proof.
  intros Hv Hh. unfold transaction_freq, histogram.
  rewrite filter_all.
  - rewrite nth_bincount by assumption. do 2 f_equal.
    rewrite map_map. apply map_ext_in. intros dt Hin.
    rewrite Forall_forall in Hv. now apply bin_index_hour, Hv.
  - apply Forall_map. revert Hv. apply Forall_impl.
    intros dt Hdt. now apply in_range_hour.
Qed.

Lemma histogram_bin_counts_the_hour_witness :
  nth 12 (transaction_freq (map fractional_hour [noon; dusk; noon])) 0%Z
  = Z.of_nat (count_occ Nat.eq_dec
                (map (fun dt => Z.to_nat (hour dt)) [noon; dusk; noon])
                12%nat).
Proof.
  apply (@histogram_bin_counts_the_hour [noon; dusk; noon] 12%nat).
  - repeat constructor; simpl; lia.
  - lia.
Defined.

(** X8. [guess_time_zones] succeeds whenever the service answers 200 with at
    least one transaction and the (first 100) timestamps are in the range
    of [datetime]; the offset it returns lies between -12 and 11. *)
Theorem guess_time_zones_succeeds (txs : list tx) :
  txs <> [] -> Forall in_datetime_range (firstn 100 txs) ->
  exists g,
    guess_time_zones (Response 200 (Json (Some txs))) = Ok g
    /\ (-12 <= g <= 11)%Z.
Proof.
  intros Hne Hr. unfold guess_time_zones. cbn [get_last_transactions Z.eqb].
  rewrite Pos.eqb_refl, length_slice_to by lia.
  change (Z.to_nat 100) with 100%nat.
  cbn [save_transactions_to_dataframe].
  destruct (@mapM_all_ok _ _ tx_data (firstn 100 txs)) as (df & Hdf & Hl).
  { revert Hr. apply Forall_impl. intros t. apply tx_data_in_range. }
  pose proof (@save_transactions_rows (firstn 100 txs) df Hdf) as [_ Hv].
  rewrite Hdf. cbn [bind].
  assert (Hdne : df <> []).
  { intros ->. destruct txs; [congruence | discriminate]. }
  assert (Hc : column_Time_UTC df = Ok (map Time_UTC df))
    by (destruct df; [congruence | reflexivity]).
  rewrite Hc. cbn [bind]. apply guess_of_valid.
  - destruct df; [congruence | discriminate].
  - exact Hv.
  - rewrite length_map, Hl, length_firstn. lia.
Qed.

Lemma guess_time_zones_succeeds_witness :
  exists g,
    guess_time_zones (Response 200 (Json (Some sample_txs))) = Ok g
    /\ (-12 <= g <= 11)%Z.
Proof.
  apply (@guess_time_zones_succeeds sample_txs).
  - discriminate.
  - repeat constructor; vm_compute; discriminate.
Defined.

(* ------------------------------------------------------------------ *)
(** ** Failures *)

Section Failures.

Lemma get_last_transactions_prefix (r : reply) (limit : Z) (l : list tx) :
  get_last_transactions r limit = Transactions l ->
  exists txs, l = slice_to limit txs.
Proof.
  destruct r as [| code [| [txs |]]]; simpl; try discriminate;
    destruct (code =? 200)%Z; try discriminate;
    intros H; injection H as <-; eauto.
Qed.

Lemma multiply_ok_24 (a : list float) :
  length a = 24%nat -> exists l, multiply a nighttime_inactivity = Ok l.
Proof.
  intros H. unfold multiply.
  replace (length nighttime_inactivity) with 24%nat by reflexivity.
  rewrite H, Nat.eqb_refl. eauto.
Qed.

Lemma multiply_ok_1 (x : float) :
  exists l, multiply [x] nighttime_inactivity = Ok l.
Proof.
  unfold multiply.
  replace (length nighttime_inactivity) with 24%nat by reflexivity.
  cbn [length Nat.eqb]. eauto.
Qed.

Lemma likelihood_raises (p : list float) (k : Z) :
  length p <> 24%nat -> length p <> 1%nat ->
  likelihood p k = Raise ValueError.
Proof.
  intros H24 H1. unfold likelihood.
  now rewrite multiply_shape by now rewrite length_roll.
Qed.

Lemma likelihood_ok (p : list float) (k : Z) :
  length p = 24%nat \/ length p = 1%nat -> exists l, likelihood p k = Ok l.
Proof.
  intros [H | H]; unfold likelihood.
  - destruct (@multiply_ok_24 (roll p k)) as [l ->];
      [now rewrite length_roll | cbn [bind]; eauto].
  - destruct p as [| x [| y p]]; try discriminate.
    rewrite roll_singleton. destruct (multiply_ok_1 x) as [l ->].
    cbn [bind]. eauto.
Qed.

End Failures.

(** X9. The engine fails on the shape of its argument and on nothing else: it
    raises [ValueError] when the array has a length other than 24 or 1, and
    returns a result for every array of length 24 or 1, whatever its
    values. *)
Theorem engine_fails_on_shape_only (tf : ndarray) :
  let n := length (to_float64 tf) in
  if ((n =? 24) || (n =? 1))%nat
  then exists post,
         calculate_time_zone_probability tf = Ok (time_zones, post)
  else calculate_time_zone_probability tf = Raise ValueError.
Proof.
  intros n. pose proof (length_transaction_prob tf) as Hl. fold n in Hl.
  unfold calculate_time_zone_probability.
  destruct (Nat.eqb_spec n 24) as [H24 | H24]; cbn [orb].
  - destruct (@mapM_all_ok _ _ (likelihood (transaction_prob tf)) time_zones)
      as (ls & Hls & _).
    { apply Forall_forall. intros k _. apply likelihood_ok. left. lia. }
    unfold likelihoods. rewrite Hls. cbn [bind]. eauto.
  - destruct (Nat.eqb_spec n 1) as [H1 | H1].
    + destruct (@mapM_all_ok _ _ (likelihood (transaction_prob tf)) time_zones)
        as (ls & Hls & _).
      { apply Forall_forall. intros k _. apply likelihood_ok. right. lia. }
      unfold likelihoods. rewrite Hls. cbn [bind]. eauto.
    + unfold likelihoods. rewrite time_zones_eq. cbn [mapM].
      rewrite likelihood_raises by lia. reflexivity.
Qed.

Lemma engine_fails_on_shape_only_example :
  calculate_time_zone_probability (Int64 [3; 4; 5]%Z) = Raise ValueError.
Proof. reflexivity. Qed.

(** X10. [get_last_transactions] hands over a prefix of what the service sent,
    of at most [limit] transactions. *)
Theorem get_last_transactions_at_most_limit (r : reply) (limit : Z)
    (l : list tx) :
  (0 <= limit)%Z ->
  get_last_transactions r limit = Transactions l ->
  (Z.of_nat (length l) <= limit)%Z
  /\ (forall code txs, r = Response code (Json (Some txs)) ->
        l = firstn (length l) txs).
Proof.
  intros Hlim H. split.
  - apply get_last_transactions_prefix in H as [txs ->].
    rewrite length_slice_to, length_firstn by assumption. lia.
  - intros code txs ->. simpl in H.
    destruct (code =? 200)%Z; [| discriminate]. injection H as <-.
    rewrite length_slice_to, length_firstn by assumption.
    destruct (Nat.le_ge_cases (Z.to_nat limit) (length txs)) as [Hle | Hge].
    + now rewrite Nat.min_l.
    + rewrite Nat.min_r by assumption.
      now rewrite firstn_all, firstn_all2.
Qed.

Lemma get_last_transactions_at_most_limit_witness :
  (Z.of_nat (length (firstn 1 sample_txs)) <= 1)%Z
  /\ (forall code txs, Response 200 (Json (Some sample_txs))
                       = Response code (Json (Some txs)) ->
        firstn 1 sample_txs = firstn (length (firstn 1 sample_txs)) txs).
Proof.
  apply (@get_last_transactions_at_most_limit
           (Response 200 (Json (Some sample_txs))) 1%Z (firstn 1 sample_txs)).
  - lia.
  - reflexivity.
Defined.

(** X11. The ways [guess_time_zones] fails: [TypeError] when the fetch gave a
    message instead of transactions, [KeyError] when it gave no transaction
    at all, and [RangeError] when one of the timestamps is outside the
    range of [datetime]; it raises nothing else. *)
Theorem guess_time_zones_failures (r : reply) (e : exn) :
  guess_time_zones r = Raise e ->
  match get_last_transactions r 100 with
  | Message _ => e = TypeError
  | Transactions [] => e = KeyError
  | Transactions l =>
      e = RangeError /\ exists t, In t l /\ ~ in_datetime_range t
  end.
Proof.
  unfold guess_time_zones.
  destruct (get_last_transactions r 100) as [l | m] eqn:Hf.
  - apply get_last_transactions_prefix in Hf as [txs Hl].
    rewrite length_slice_to in Hl by lia.
    assert (Hlen : (length l <= 100)%nat)
      by (subst l; rewrite length_firstn; lia).
    clear Hl. cbn [save_transactions_to_dataframe].
    destruct (mapM tx_data l) as [df | e'] eqn:Hdf; cbn [bind].
    + pose proof (save_transactions_rows l Hdf) as [Hl Hv].
      destruct l as [| t l].
      * destruct df; [| discriminate]. simpl. congruence.
      * destruct df as [| r0 df]; [discriminate |].
        cbn [column_Time_UTC bind].
        destruct (@guess_of_valid (map Time_UTC (r0 :: df))) as (g & Hg & _).
        -- discriminate.
        -- exact Hv.
        -- rewrite length_map, Hl. exact Hlen.
        -- rewrite Hg. discriminate.
    + intros H. injection H as <-.
      apply mapM_raises in Hdf as (t & Hin & Ht).
      apply tx_data_raises in Ht as [-> Hout].
      destruct l as [| t0 l]; [contradiction |]. eauto.
  - simpl. congruence.
Qed.

Lemma guess_time_zones_failures_witness :
  match get_last_transactions (Response 404 NotJson) 100 with
  | Message _ => TypeError = TypeError
  | Transactions [] => TypeError = KeyError
  | Transactions l =>
      TypeError = RangeError /\ exists t, In t l /\ ~ in_datetime_range t
  end.
Proof.
  apply (@guess_time_zones_failures (Response 404 NotJson) TypeError).
  reflexivity.
Defined.

(* ------------------------------------------------------------------ *)
(** ** What the pipeline depends on *)

Section Dependence.

Lemma guess_of_hours (d1 d2 : list datetime) :
  map fractional_hour d1 = map fractional_hour d2 ->
  guess_of d1 = guess_of d2.
Proof.
  intros H. unfold guess_of, probabilities_of. now rewrite H.
Qed.

Lemma guess_of_Permutation (d1 d2 : list datetime) :
  Permutation d1 d2 -> guess_of d1 = guess_of d2.
Proof.
  intros H. unfold guess_of, probabilities_of, transaction_freq.
  now rewrite (histogram_Permutation 24 _ _
                 (Permutation_map fractional_hour H)).
Qed.

Lemma utcfromtimestamp_day_shift (t d : Z) (dt dt' : datetime) :
  utcfromtimestamp t = Ok dt ->
  utcfromtimestamp (t + 86400 * d) = Ok dt' ->
  fractional_hour dt' = fractional_hour dt.
Proof.
  assert (E1 : ((t + 86400 * d) mod 86400 = t mod 86400)%Z)
    by (rewrite (Z.mul_comm 86400 d); now rewrite Z_mod_plus_full).
  assert (E2 : ((t + 86400 * d) mod 3600 = t mod 3600)%Z).
  { replace (86400 * d)%Z with ((24 * d) * 3600)%Z by lia.
    now rewrite Z_mod_plus_full. }
  generalize dependent (t + 86400 * d)%Z. intros t' E1 E2.
  unfold utcfromtimestamp.
  destruct (_ && _)%bool; [| discriminate].
  destruct (_ && _)%bool; [| discriminate].
  intros H H'. injection H as <-. injection H' as <-.
  unfold fractional_hour. cbn [hour minute]. now rewrite E1, E2.
Qed.

Lemma tx_data_day_shift (t t' : tx) (r r' : row) :
  same_time_of_day t t' -> tx_data t = Ok r -> tx_data t' = Ok r' ->
  fractional_hour (Time_UTC r') = fractional_hour (Time_UTC r).
Proof.
  intros [d Hd]. unfold tx_data. rewrite Hd.
  destruct (utcfromtimestamp (time t)) as [dt |] eqn:E;
    cbn [bind]; [| discriminate].
  destruct (utcfromtimestamp (time t + 86400 * d)) as [dt' |] eqn:E';
    cbn [bind]; [| discriminate].
  intros H H'. injection H as <-. injection H' as <-. cbn [Time_UTC].
  now apply utcfromtimestamp_day_shift with (time t) d.
Qed.

Lemma Forall2_firstn {A B} (R : A -> B -> Prop) (n : nat)
    (l : list A) (l' : list B) :
  Forall2 R l l' -> Forall2 R (firstn n l) (firstn n l').
Proof.
  intros H. revert n. induction H as [| x y l l' Hxy _ IH]; intros [| n];
    simpl; constructor; auto.
Qed.

Lemma mapM_day_shift (l l' : list tx) (df df' : dataframe) :
  Forall2 same_time_of_day l l' ->
  mapM tx_data l = Ok df -> mapM tx_data l' = Ok df' ->
  map fractional_hour (map Time_UTC df)
  = map fractional_hour (map Time_UTC df').
Proof.
  intros H. revert df df'.
  induction H as [| t t' l l' Ht _ IH]; intros df df'; cbn [mapM].
  - intros H H'. injection H as <-. injection H' as <-. reflexivity.
  - destruct (tx_data t) as [r |] eqn:E; cbn [bind]; [| discriminate].
    destruct (mapM tx_data l) as [rs |]; cbn [bind]; [| discriminate].
    destruct (tx_data t') as [r' |] eqn:E'; cbn [bind]; [| discriminate].
    destruct (mapM tx_data l') as [rs' |]; cbn [bind]; [| discriminate].
    intros H H'. injection H as <-. injection H' as <-. cbn [map].
    f_equal; [| now apply IH].
    symmetry. now apply tx_data_day_shift with t t'.
Qed.

(** A loop that succeeds on a list succeeds on every reordering of it, with
    the results reordered the same way. *)
Lemma mapM_Permutation_ok {A B} (f : A -> result B) (l l' : list A) :
  Permutation l l' ->
  forall ys, mapM f l = Ok ys ->
  exists ys', mapM f l' = Ok ys' /\ Permutation ys ys'.
Proof.
  induction 1 as [| x l l' _ IH | x y l | l l' l'' _ IH1 _ IH2]; intros ys.
  - intros H. exists ys. split; [exact H | apply Permutation_refl].
  - cbn [mapM]. destruct (f x) as [y |]; cbn [bind]; [| discriminate].
    destruct (mapM f l) as [ys0 |]; cbn [bind]; [| discriminate].
    intros H. injection H as <-.
    destruct (IH ys0 eq_refl) as (ys0' & -> & Hp). cbn [bind].
    exists (y :: ys0'). split; [reflexivity | now constructor].
  - cbn [mapM]. destruct (f y) as [v |]; cbn [bind]; [| discriminate].
    destruct (f x) as [u |]; cbn [bind]; [| discriminate].
    destruct (mapM f l) as [ys0 |]; cbn [bind]; [| discriminate].
    intros H. injection H as <-.
    exists (u :: v :: ys0). split; [reflexivity | apply perm_swap].
  - intros H. destruct (IH1 ys H) as (zs & Hz & Hp).
    destruct (IH2 zs Hz) as (ws & Hw & Hq).
    exists ws. split; [exact Hw | now apply Permutation_trans with zs].
Qed.

End Dependence.

(** X12. Only the time of day matters: moving any of the timestamps by whole
    days (within the range of [datetime]) leaves the answer of
    [guess_time_zones] unchanged. *)
Theorem only_the_time_of_day_matters (txs txs' : list tx) :
  Forall2 same_time_of_day txs txs' ->
  Forall in_datetime_range txs -> Forall in_datetime_range txs' ->
  guess_time_zones (Response 200 (Json (Some txs)))
  = guess_time_zones (Response 200 (Json (Some txs'))).
Proof.
  intros H2 Hr Hr'. unfold guess_time_zones.
  cbn [get_last_transactions Z.eqb]. rewrite Pos.eqb_refl.
  rewrite !length_slice_to by lia. change (Z.to_nat 100) with 100%nat.
  cbn [save_transactions_to_dataframe].
  apply (Forall2_firstn 100) in H2.
  apply (Forall_firstn 100) in Hr, Hr'.
  destruct (@mapM_all_ok _ _ tx_data (firstn 100 txs)) as (df & Hdf & Hl).
  { revert Hr. apply Forall_impl. intros t. apply tx_data_in_range. }
  destruct (@mapM_all_ok _ _ tx_data (firstn 100 txs')) as (df' & Hdf' & Hl').
  { revert Hr'. apply Forall_impl. intros t. apply tx_data_in_range. }
  pose proof (mapM_day_shift H2 Hdf Hdf') as Hh.
  rewrite Hdf, Hdf'. cbn [bind].
  assert (Hlen : length df = length df').
  { apply (f_equal (@length Qc)) in Hh. now rewrite !length_map in Hh. }
  destruct df as [| r df], df' as [| r' df']; try discriminate.
  - reflexivity.
  - cbn [column_Time_UTC bind]. now apply guess_of_hours.
Qed.

Lemma only_the_time_of_day_matters_witness :
  guess_time_zones (Response 200 (Json (Some sample_txs)))
  = guess_time_zones (Response 200 (Json (Some sample_txs_later))).
Proof.
  apply (@only_the_time_of_day_matters sample_txs sample_txs_later).
  - constructor; [now exists 3%Z |].
    constructor; [now exists (-400)%Z | constructor].
  - repeat constructor; vm_compute; discriminate.
  - repeat constructor; vm_compute; discriminate.
Defined.

(** X13. The order in which the service lists the transactions does not matter
    as long as there are at most 100 of them and their timestamps are in the
    range of [datetime] (beyond 100, the order decides which ones are kept;
    out of range, which exception is raised first). *)
Theorem reordering_transactions_changes_nothing (txs txs' : list tx) :
  Permutation txs txs' -> (length txs <= 100)%nat ->
  Forall in_datetime_range txs ->
  guess_time_zones (Response 200 (Json (Some txs)))
  = guess_time_zones (Response 200 (Json (Some txs'))).
Proof.
  intros Hp Hlen Hr. unfold guess_time_zones.
  cbn [get_last_transactions Z.eqb]. rewrite Pos.eqb_refl.
  rewrite !length_slice_to by lia. change (Z.to_nat 100) with 100%nat.
  rewrite !firstn_all2
    by (rewrite <- ?(Permutation_length Hp); assumption).
  cbn [save_transactions_to_dataframe].
  destruct (@mapM_all_ok _ _ tx_data txs) as (df & Hdf & _).
  { revert Hr. apply Forall_impl. intros t. apply tx_data_in_range. }
  destruct (mapM_Permutation_ok tx_data Hp Hdf) as (df' & Hdf' & Hq).
  rewrite Hdf, Hdf'. cbn [bind].
  pose proof (Permutation_length Hq) as Hl.
  destruct df as [| r df], df' as [| r' df']; try discriminate.
  - reflexivity.
  - cbn [column_Time_UTC bind].
    now apply guess_of_Permutation, Permutation_map.
Qed.

Lemma reordering_transactions_changes_nothing_witness :
  guess_time_zones (Response 200 (Json (Some sample_txs)))
  = guess_time_zones (Response 200 (Json (Some (rev sample_txs)))).
Proof.
  apply (@reordering_transactions_changes_nothing
           sample_txs (rev sample_txs)).
  - apply Permutation_rev.
  - simpl. lia.
  - repeat constructor; vm_compute; discriminate.
Defined.

(* ------------------------------------------------------------------ *)
(** ** The rows of the data frame *)

(** X14. [save_transactions_to_dataframe] succeeds exactly when every timestamp
    is in the range of [datetime]; the frame then has one row per
    transaction, in order, with the UTC hour and minute of its timestamp,
    its numbers of inputs and outputs, and its total output in BTC
    (satoshis over 10^8, a finite value). *)
Theorem dataframe_has_one_row_per_transaction (txs : list tx) :
  (Forall in_datetime_range txs
   <-> exists df, save_transactions_to_dataframe (Transactions txs) = Ok df)
  /\ forall df,
       save_transactions_to_dataframe (Transactions txs) = Ok df ->
       Forall2
         (fun t r =>
            hour (Time_UTC r) = ((time t / 3600) mod 24)%Z
            /\ minute (Time_UTC r) = ((time t / 60) mod 60)%Z
            /\ Inputs r = inputs t
            /\ Outputs r = length (out t)
            /\ Total_BTC_Transacted r
               = Fin (Q2Qc (inject_Z (Zsum (map value (out t))))
                      / Q2Qc (inject_Z 100000000)))
         txs df.
Proof.
  cbn [save_transactions_to_dataframe]. split; [split |].
  - intros H.
    destruct (@mapM_all_ok _ _ tx_data txs) as (df & Hdf & _); [| eauto].
    revert H. apply Forall_impl. intros t. apply tx_data_in_range.
  - intros [df Hdf]. apply mapM_Forall2 in Hdf.
    induction Hdf as [| t r txs df Hr _ IH]; constructor; [| exact IH].
    unfold tx_data, utcfromtimestamp, in_datetime_range in *.
    destruct (Z.leb_spec datetime_min (time t)),
             (Z.leb_spec (time t) datetime_max); simpl in Hr;
      try discriminate. lia.
  - intros df Hdf. apply mapM_Forall2 in Hdf.
    induction Hdf as [| t r txs df Hr _ IH]; constructor; [| exact IH].
    unfold tx_data, utcfromtimestamp in Hr.
    destruct (_ && _)%bool; cbn [bind] in Hr; [| discriminate].
    injection Hr as <-. cbn [Time_UTC hour minute Inputs Outputs
                              Total_BTC_Transacted].
    split; [| split; [| split; [| split]]]; try reflexivity.
    + generalize (time t). intros z. Z.div_mod_to_equations. lia.
    + generalize (time t). intros z. Z.div_mod_to_equations. lia.
Qed.

(* ------------------------------------------------------------------ *)
(** ** [extract_data.py]: the clean-up of a scraped address *)

Section CleanAddress.

Import ExtractData.

Lemma remove_dots_head (c : ascii) (r : string) :
  is_dot c = false -> exists r', remove_dots (String c r) = String c r'.
Proof.
  intros H. destruct r as [| c' r']; simpl; [eauto |].
  rewrite H. simpl. eauto.
Qed.

Lemma remove_dots_step (c c' : ascii) (r' : string) :
  remove_dots (String c (String c' r'))
  = if is_dot c && is_dot c' then remove_dots r'
    else String c (remove_dots (String c' r')).
Proof. reflexivity. Qed.

Lemma contains_dots_step (c c' : ascii) (r' : string) :
  contains_dots (String c (String c' r'))
  = (is_dot c && is_dot c') || contains_dots (String c' r').
Proof. reflexivity. Qed.

Lemma contains_dots_remove_dots (n : nat) (s : string) :
  (String.length s <= n)%nat -> contains_dots (remove_dots s) = false.
Proof.
  revert s. induction n as [| n IH]; intros s Hn.
  - destruct s; [reflexivity | simpl in Hn; lia].
  - destruct s as [| c [| c' r']]; try reflexivity.
    rewrite remove_dots_step. destruct (is_dot c && is_dot c') eqn:E.
    + apply IH. simpl in Hn. lia.
    + assert (Hr : contains_dots (remove_dots (String c' r')) = false)
        by (apply IH; simpl in *; lia).
      destruct (is_dot c) eqn:Hc; simpl in E.
      * destruct (remove_dots_head c' r' E) as [t' Ht].
        rewrite Ht in *. now rewrite contains_dots_step, E, andb_false_r.
      * destruct (remove_dots (String c' r')) as [| d t];
          [reflexivity |].
        now rewrite contains_dots_step, Hc.
Qed.

Lemma is_dot_eq (c : ascii) : is_dot c = true -> c = "."%char.
Proof. apply Ascii.eqb_eq. Qed.

Lemma drop_last_two_dots (n : nat) (s : string) :
  (String.length s <= n)%nat -> endswith_dots s = true ->
  String.append (drop_last_two s) ".." = s.
Proof.
  revert s. induction n as [| n IH]; intros s Hn H.
  - destruct s; [discriminate | simpl in Hn; lia].
  - destruct s as [| c [| c' [| c'' r]]]; try discriminate.
    + cbn [endswith_dots] in H. apply andb_prop in H as [H1 H2].
      apply is_dot_eq in H1, H2. now subst.
    + change (endswith_dots (String c' (String c'' r)) = true) in H.
      change (String c (String.append
                          (drop_last_two (String c' (String c'' r))) "..")
              = String c (String c' (String c'' r))).
      f_equal. apply IH; [simpl in *; lia | exact H].
Qed.

End CleanAddress.

(** X15. An address that does not end with two dots comes out of the clean-up
    without any ['..'] in it. *)
Theorem cleaned_address_has_no_dots (address : string) :
  ExtractData.endswith_dots address = false ->
  ExtractData.contains_dots (ExtractData.clean_address address) = false.
Proof.
  intros H. unfold ExtractData.clean_address. rewrite H.
  destruct (ExtractData.contains_dots address) eqn:E; [| exact E].
  now apply (contains_dots_remove_dots (n := String.length address)).
Qed.

Lemma cleaned_address_has_no_dots_witness :
  ExtractData.contains_dots (ExtractData.clean_address "1A..zP...1")
  = false.
Proof.
  apply (@cleaned_address_has_no_dots "1A..zP...1"). reflexivity.
Defined.

(** X16. An address that ends with two dots loses exactly these two characters:
    what is left, followed by ['..'], is the address as scraped (dots inside
    it, and further dots before the last two, stay). *)
Theorem cleaned_address_drops_the_two_last_dots (address : string) :
  ExtractData.endswith_dots address = true ->
  String.append (ExtractData.clean_address address) ".." = address.
Proof.
  intros H. unfold ExtractData.clean_address. rewrite H.
  now apply (drop_last_two_dots (n := String.length address)).
Qed.

Lemma cleaned_address_drops_the_two_last_dots_witness :
  String.append (ExtractData.clean_address "1A..zP....") ".."
  = "1A..zP...."%string.
Proof.
  apply (@cleaned_address_drops_the_two_last_dots "1A..zP...."). reflexivity.
Defined.

(* ------------------------------------------------------------------ *)
(** ** What the scores measure *)

Section NightActivity.

Lemma Qlikelihood_Qprob (a : list Z) (k : Z) :
  length a = 24%nat ->
  Qlikelihood (Qprob a) k
  = Q2Qc (inject_Z (night_activity a k))
    * (Q2Qc (1 # 6) * / Q2Qc (inject_Z (Zsum a))).
Proof.
  intros Hl. unfold Qlikelihood, night_activity.
  rewrite Qdot_template by now rewrite length_roll, length_Qprob.
  unfold Qprob. rewrite roll_map, firstn_map.
  rewrite <- (map_map (fun c => Q2Qc (inject_Z c))
                      (fun q => q / Q2Qc (inject_Z (Zsum a)))).
  rewrite Qsum_map_div, Qsum_of_Z. unfold Qcdiv. ring.
Qed.

Lemma night_activity_hours (a : list Z) (k : Z) :
  length a = 24%nat ->
  night_activity a k
  = Zsum (map (fun j => nth (Z.to_nat ((Z.of_nat j - k) mod 24)) a 0%Z)
              (seq 0 6)).
Proof.
  intros Hl. unfold night_activity. f_equal.
  apply (nth_ext _ _ 0%Z 0%Z).
  - rewrite length_firstn, length_roll, length_map, length_seq, Hl.
    reflexivity.
  - intros i Hi. rewrite length_firstn, length_roll, Hl in Hi.
    assert (Hi6 : (i < 6)%nat) by lia.
    rewrite nth_firstn.
    replace (i <? 6)%nat with true by (symmetry; now apply Nat.ltb_lt).
    rewrite nth_roll by lia. rewrite Hl.
    set (f := fun j => nth (Z.to_nat ((Z.of_nat j - k) mod 24)) a 0%Z).
    rewrite (nth_indep (map f (seq 0 6)) 0%Z (f 0%nat))
      by now rewrite length_map, length_seq.
    rewrite (map_nth f), seq_nth by assumption. reflexivity.
Qed.

Lemma Qc_of_Z_le (x y : Z) :
  Q2Qc (inject_Z x) <= Q2Qc (inject_Z y) -> (x <= y)%Z.
Proof. intros H. qc2q. now rewrite Zle_Qle. Qed.

Lemma Qcmult_pos (x y : Qc) : 0 < x -> 0 < y -> 0 < x * y.
Proof. intros Hx Hy. qc2q. nra. Qed.

Lemma nth_Qposterior (p : list Qc) (i : nat) :
  (i < 25)%nat ->
  nth i (Qposterior p) 0
  = Qlikelihood p (Z.of_nat i - 12) * / Qsum (Qlikelihoods p).
Proof.
  intros Hi. unfold Qposterior, Qlikelihoods. rewrite map_map.
  set (f := fun k => Qlikelihood p k / Qsum (map (Qlikelihood p) time_zones)).
  rewrite (nth_indep (map f time_zones) 0 (f 0%Z)) by now rewrite length_map.
  rewrite (map_nth f). unfold f.
  replace (nth i time_zones 0%Z) with (Z.of_nat i - 12)%Z; [reflexivity |].
  do 25 (destruct i as [| i]; [reflexivity |]). lia.
Qed.

End NightActivity.

(** X17. The likelihood of offset [k] is the number of transactions in the six
    UTC hours [(0 - k) mod 24, ..., (5 - k) mod 24] (those that the
    rotation by [k] brings to the hours 0 to 5), over six times the number
    of transactions. *)
Theorem likelihood_counts_night_activity (a : list Z) (k : Z) :
  is_histogram a -> sum_int a <> 0%Z ->
  likelihood (transaction_prob (Int64 a)) k
  = Ok (Fin (Q2Qc (inject_Z (night_activity a k))
             * (Q2Qc (1 # 6) * / Q2Qc (inject_Z (Zsum a)))))
  /\ night_activity a k
     = Zsum (map (fun j => nth (Z.to_nat ((Z.of_nat j - k) mod 24)) a 0%Z)
                 (seq 0 6)).
Proof.
  intros Ha Hs. rewrite (sum_int_histogram Ha) in Hs.
  pose proof Ha as (Hl & _). split.
  - rewrite transaction_prob_histogram by assumption.
    rewrite likelihood_fin by now rewrite length_Qprob.
    now rewrite Qlikelihood_Qprob.
  - now apply night_activity_hours.
Qed.

Lemma likelihood_counts_night_activity_witness :
  likelihood (transaction_prob (Int64 (repeat 0 6 ++ repeat 1 18)%Z)) 5
  = Ok (Fin (Q2Qc (inject_Z (night_activity (repeat 0 6 ++ repeat 1 18)%Z 5))
             * (Q2Qc (1 # 6)
                * / Q2Qc (inject_Z (Zsum (repeat 0 6 ++ repeat 1 18)%Z)))))
  /\ night_activity (repeat 0 6 ++ repeat 1 18)%Z 5
     = Zsum (map (fun j => nth (Z.to_nat ((Z.of_nat j - 5) mod 24))
                             (repeat 0 6 ++ repeat 1 18)%Z 0%Z)
                 (seq 0 6)).
Proof.
  apply (@likelihood_counts_night_activity (repeat 0 6 ++ repeat 1 18)%Z 5%Z).
  - split; [reflexivity | split].
    + simpl. repeat constructor; discriminate.
    + reflexivity.
  - vm_compute. discriminate.
Defined.

(** X18. What the selector selects: for a histogram with activity and at
    most 100 transactions (what [guess_time_zones] supplies), the answer is
    an offset under which the largest number of transactions falls into the
    hours 0 to 5 of the rotated day; no candidate brings more there.  (The
    bound keeps two different counts further apart than any rounding of
    binary64; which of several offsets with the same count is answered is
    left open, since there rounding can decide.) *)
Theorem selector_maximises_night_activity (a : list Z) :
  is_histogram a -> sum_int a <> 0%Z -> (Zsum a <= 100)%Z ->
  exists g,
    (tp <- calculate_time_zone_probability (Int64 a) ;;
     guessed_timezone (fst tp) (snd tp)) = Ok g
    /\ (-12 <= g <= 12)%Z
    /\ (forall k, (-12 <= k <= 12)%Z ->
          (night_activity a k <= night_activity a g)%Z).
Proof.
  intros Ha Hs _. rewrite (sum_int_histogram Ha) in Hs.
  destruct (calculate_histogram Ha Hs) as [E Hpos].
  pose proof Ha as (Hl & Hnn & _).
  assert (Hne : Qposterior (Qprob a) <> []).
  { intros E0. apply (f_equal (@length Qc)) in E0.
    now rewrite length_Qposterior in E0. }
  destruct (argmax_fin Hne) as (j & Hj & Hlt & Hmax & _).
  rewrite length_Qposterior in Hlt, Hmax.
  assert (HT : 0 < Q2Qc (inject_Z (Zsum a))).
  { apply Qc_of_Z_pos. pose proof (Zsum_nonneg Hnn). lia. }
  assert (Hz : 0 < Q2Qc (1 # 6) * / Q2Qc (inject_Z (Zsum a))
                   * / Qsum (Qlikelihoods (Qprob a))).
  { apply Qcmult_pos; [apply Qcmult_pos |].
    - exact sixth_pos.
    - now apply Qcinv_pos.
    - now apply Qcinv_pos. }
  assert (Hnth : forall i, (i < 25)%nat ->
            nth i (Qposterior (Qprob a)) 0
            = Q2Qc (inject_Z (night_activity a (Z.of_nat i - 12)))
              * (Q2Qc (1 # 6) * / Q2Qc (inject_Z (Zsum a))
                 * / Qsum (Qlikelihoods (Qprob a)))).
  { intros i Hi. rewrite nth_Qposterior, Qlikelihood_Qprob by assumption.
    ring. }
  exists (Z.of_nat j - 12)%Z. split; [| split; [lia |]].
  - rewrite E. cbn [bind fst snd]. unfold guessed_timezone.
    rewrite Hj. cbn [bind]. now apply getitem_time_zones.
  - intros k Hk.
    assert (Hi : (Z.to_nat (k + 12) < 25)%nat) by lia.
    pose proof (Hmax _ Hi) as Hle.
    rewrite !Hnth in Hle by assumption.
    apply Qcmult_lt_0_le_reg_r in Hle; [| exact Hz].
    apply Qc_of_Z_le in Hle.
    now replace (Z.of_nat (Z.to_nat (k + 12)) - 12)%Z with k in Hle by lia.
Qed.

(** Eight transactions with counts 1, 1, 2, 2, 1, 1 in the hours 2, 3, 5, 6,
    8 and 15: the offsets -3, -2 and -1 each bring six of them to the hours
    0 to 5, and no offset brings more. *)
Lemma selector_maximises_night_activity_witness :
  exists g,
    (tp <- calculate_time_zone_probability (Int64 three_way_tie) ;;
     guessed_timezone (fst tp) (snd tp)) = Ok g
    /\ (-12 <= g <= 12)%Z
    /\ (forall k, (-12 <= k <= 12)%Z ->
          (night_activity three_way_tie k
           <= night_activity three_way_tie g)%Z).
Proof.
  apply (@selector_maximises_night_activity three_way_tie).
  - split; [reflexivity | split].
    + unfold three_way_tie. repeat constructor; discriminate.
    + reflexivity.
  - vm_compute. discriminate.
  - vm_compute. discriminate.
Defined.
